(** * ADGM compliance checker and document checklist verifier

    A shallow embedding of [src/adgm_checker.py] and
    [src/checklist_verifier.py], with the properties of the compliance
    score, of file name normalisation, of document matching and of the
    checklist loop.

    Modelling conventions.
    - A Python [str] is a [string] whose characters are the code points
      0..255; [str.lower], [str.isspace] and the [\s] class of [re] are
      written out for that range.
    - A Python [float] is the rational number it holds; every float
      operation returns the exact result rounded to the nearest number
      with a 53-bit significand, ties to even (IEEE 754 binary64; the
      exponent range is not modelled: the values of this program are 0
      or lie between 2^-47 and 100).  The operations are compared with
      the kernel's binary64 floats on sample values.
    - A [dict] read with [.get] is a [gmap]; a dict whose iteration order
      matters is an association list; the [set] of found documents is a
      [gset]. *)

From Stdlib Require Import Ascii String QArith Qround Qminmax Qpower Lqa.
From Stdlib Require Floats DecimalString Sorted.
From stdpp Require Import gmap strings list.

Local Open Scope string_scope.

(** ** Python string primitives *)

Module PyStr.

Definition code (c : ascii) : N := N_of_ascii c.

(** [str.isspace] on one character. *)
Definition is_space (c : ascii) : bool :=
  let n := code c in
  (((9 <=? n) && (n <=? 13)) || ((28 <=? n) && (n <=? 32))
   || (n =? 133) || (n =? 160))%N.

(** [str.lower] on one character. *)
Definition lower_char (c : ascii) : ascii :=
  let n := code c in
  if (((65 <=? n) && (n <=? 90))
      || ((192 <=? n) && (n <=? 222) && negb (n =? 215)))%N
  then ascii_of_N (n + 32) else c.

Fixpoint lower (s : string) : string :=
  match s with
  | EmptyString => EmptyString
  | String c s' => String (lower_char c) (lower s')
  end.

(** [s.startswith(p)] *)
Fixpoint startswith (s p : string) {struct p} : bool :=
  match p, s with
  | EmptyString, _ => true
  | String _ _, EmptyString => false
  | String b p', String a s' => Ascii.eqb a b && startswith s' p'
  end.

(** [needle in hay] *)
Fixpoint py_in (needle hay : string) {struct hay} : bool :=
  startswith hay needle ||
  match hay with
  | EmptyString => false
  | String _ hay' => py_in needle hay'
  end.

(** [s.endswith(suffix)] *)
Fixpoint endswith (s suffix : string) {struct s} : bool :=
  String.eqb s suffix ||
  match s with
  | EmptyString => false
  | String _ s' => endswith s' suffix
  end.

Fixpoint take (n : nat) (s : string) : string :=
  match n, s with
  | S n', String c s' => String c (take n' s')
  | _, _ => EmptyString
  end.

(** [s[:-n]] *)
Definition slice_to_neg (n : nat) (s : string) : string :=
  match n with
  | O => EmptyString
  | _ => take (String.length s - n) s
  end.

Fixpoint lstrip (s : string) : string :=
  match s with
  | EmptyString => EmptyString
  | String c s' => if is_space c then lstrip s' else s
  end.

Fixpoint rstrip (s : string) : string :=
  match s with
  | EmptyString => EmptyString
  | String c s' =>
      match rstrip s' with
      | EmptyString => if is_space c then EmptyString else String c EmptyString
      | r => String c r
      end
  end.

(** [s.strip()] *)
Definition strip (s : string) : string := rstrip (lstrip s).

(** [s.replace(old, new)] for one-character [old] and [new]. *)
Fixpoint replace (old new : ascii) (s : string) : string :=
  match s with
  | EmptyString => EmptyString
  | String c s' =>
      String (if Ascii.eqb c old then new else c) (replace old new s')
  end.

Definition cons_word (w : string) (ws : list string) : list string :=
  match w with
  | EmptyString => ws
  | _ => w :: ws
  end.

(** The word being read at the head of [s] and the words after it. *)
Fixpoint split_from (s : string) : string * list string :=
  match s with
  | EmptyString => (EmptyString, [])
  | String c s' =>
      let '(w, ws) := split_from s' in
      if is_space c then (EmptyString, cons_word w ws) else (String c w, ws)
  end.

(** [s.split()] *)
Definition split (s : string) : list string :=
  let '(w, ws) := split_from s in cons_word w ws.

(** [sep.join(ws)] *)
Fixpoint join (sep : string) (ws : list string) : string :=
  match ws with
  | [] => EmptyString
  | [w] => w
  | w :: ws' => String.append w (String.append sep (join sep ws'))
  end.

End PyStr.

(** ** File name normalisation ([DocumentChecklistVerifier._normalize_filename]) *)

Definition common_extensions : list string :=
  [".docx"; ".doc"; ".pdf"; ".txt"; ".rtf"; ".odt"].

(** The [for ext in common_extensions: ... break] loop. *)
Fixpoint strip_extension (exts : list string) (filename filename_lower : string)
  : string :=
  match exts with
  | [] => filename
  | ext :: exts' =>
      if PyStr.endswith filename_lower ext
      then PyStr.slice_to_neg (String.length ext) filename
      else strip_extension exts' filename filename_lower
  end.

Definition _normalize_filename (filename : string) : string :=
  let filename := PyStr.strip filename in
  let filename_lower := PyStr.lower filename in
  let name_without_ext :=
    strip_extension common_extensions filename filename_lower in
  let normalized :=
    PyStr.replace "." " " (PyStr.replace "-" " "
      (PyStr.replace "_" " " name_without_ext)) in
  PyStr.join " " (PyStr.split (PyStr.lower normalized)).

(** ** The fragment of [re] used by the rule catalog

    Every pattern of the catalog is a sequence of literal characters,
    [\s+] and optional characters [c?], matched with [re.IGNORECASE]. *)

Module Re.

Inductive atom : Type :=
| Lit (c : ascii)
| Opt (c : ascii)
| Ws1.

(** [re.compile(p, re.IGNORECASE)] on that fragment; the characters of
    the pattern are kept in lower case. *)
Fixpoint compile (p : string) : list atom :=
  match p with
  | EmptyString => []
  | String "\" (String "s" (String "+" p')) => Ws1 :: compile p'
  | String c (String "?" p') => Opt (PyStr.lower_char c) :: compile p'
  | String c p' => Lit (PyStr.lower_char c) :: compile p'
  end.

(** The character [x] of the text against the lower-case [c]. *)
Definition eq_ci (c x : ascii) : bool :=
  Ascii.eqb c (PyStr.lower_char x).

(** Length of the match of [p] anchored at the head of the string:
    quantifiers are greedy and give back on failure. *)
Fixpoint match_here (p : list atom) : string -> option nat :=
  match p with
  | [] => fun _ => Some 0
  | Lit c :: p' => fun s =>
      match s with
      | String x s' => if eq_ci c x then S <$> match_here p' s' else None
      | EmptyString => None
      end
  | Opt c :: p' => fun s =>
      match s with
      | String x s' =>
          if eq_ci c x then
            match match_here p' s' with
            | Some n => Some (S n)
            | None => match_here p' s
            end
          else match_here p' s
      | EmptyString => match_here p' s
      end
  | Ws1 :: p' =>
      fix ws (s : string) : option nat :=
        match s with
        | String x s' =>
            if PyStr.is_space x then
              match ws s' with
              | Some n => Some (S n)
              | None => S <$> match_here p' s'
              end
            else None
        | EmptyString => None
        end
  end.

(** Left-to-right scan for non-overlapping matches; [skip] characters
    belong to the match found last.  No catalog pattern matches the
    empty string, so an empty match is not reported. *)
Fixpoint scan (p : list atom) (s : string) (skip : nat) : list string :=
  match s with
  | EmptyString => []
  | String _ s' =>
      match skip with
      | S k => scan p s' k
      | O =>
          match match_here p s with
          | Some (S n) => PyStr.take (S n) s :: scan p s' n
          | _ => scan p s' 0
          end
      end
  end.

(** [[m.group() for m in re.finditer(pattern, content, re.IGNORECASE)]] *)
Definition finditer (pattern content : string) : list string :=
  scan (compile pattern) content 0.

End Re.

(** ** Python values met in the structure dictionary *)

#[warnings="-register-all"]
Inductive pyval : Type :=
| PStr (s : string)
| PList (items : list pyval).

(** Truth value of [d.get(k)]: a missing key gives [None]. *)
Definition truthy (v : option pyval) : bool :=
  match v with
  | None => false
  | Some (PStr s) => negb (String.eqb s "")
  | Some (PList items) => negb (Nat.eqb (List.length items) 0)
  end.

(** [len(d.get(k, []))] *)
Definition len_or_empty (v : option pyval) : nat :=
  match v with
  | None => 0
  | Some (PStr s) => String.length s
  | Some (PList items) => List.length items
  end.

(** ** Rounding and floating point *)

(** Nearest integer, ties to even. *)
Definition round_half_even (x : Q) : Z :=
  let f := Qfloor x in
  match (x - inject_Z f ?= 1 # 2)%Q with
  | Lt => f
  | Gt => (f + 1)%Z
  | Eq => if Z.even f then f else (f + 1)%Z
  end.

Module Binary64.

(** [floor (log2 x)], for [x > 0]. *)
Definition binade (x : Q) : Z :=
  let n := Qnum x in
  let d := Zpos (Qden x) in
  let k := (Z.log2 n - Z.log2 d)%Z in
  if (d * 2 ^ Z.max 0 k <=? n * 2 ^ Z.max 0 (- k))%Z then k else (k - 1)%Z.

(** The distance between the floats around [x > 0]. *)
Definition ulp (x : Q) : Q := (2 ^ (binade x - 52))%Q.

(** The float nearest to [x > 0], ties to the even significand. *)
Definition round_pos (x : Q) : Q :=
  (inject_Z (round_half_even (x / ulp x)) * ulp x)%Q.

(** The float nearest to [x]. *)
Definition fl (x : Q) : Q :=
  match Qnum x with
  | Z0 => 0%Q
  | Zpos _ => round_pos x
  | Zneg _ => (- round_pos (- x))%Q
  end.

(** [a / b], [a * b] and [a - b] on floats; [fdiv] is also the true
    division of two [int]s, which Python rounds correctly. *)
Definition fdiv (a b : Q) : Q := fl (a / b).
Definition fmul (a b : Q) : Q := fl (a * b).
Definition fsub (a b : Q) : Q := fl (a - b).

End Binary64.

(** An [int] counter used in a true division. *)
Definition Qnat (n : nat) : Q := inject_Z (Z.of_nat n).

(** [round(x, 2)]: the decimal with two digits nearest to the value of
    [x], ties to even.  Python returns the float nearest to that
    decimal; the decimal stands for it. *)
Definition round2 (x : Q) : Q := (inject_Z (round_half_even (x * 100)) / 100)%Q.

(** ** The compliance checker ([adgm_checker.py]) *)

Module ADGMComplianceChecker.

Record ComplianceIssue : Type := {
  issue_type : string;
  severity : string;
  description : string;
  section : string;
  clause : string;
  adgm_reference : string;
  suggestion : string
}.

Definition adgm_jurisdiction_patterns : list string :=
  [ "ADGM\s+Courts?";
    "Abu\s+Dhabi\s+Global\s+Market";
    "ADGM\s+Companies?\s+Regulations?";
    "ADGM\s+Commercial\s+Regulations?" ].

Definition federal_court_patterns : list string :=
  [ "UAE\s+Federal\s+Courts?";
    "Federal\s+Courts?\s+of\s+UAE";
    "Dubai\s+Courts?";
    "Abu\s+Dhabi\s+Courts?" ].

Definition required_clauses : gmap string (list string) :=
  list_to_map
    [ ("Articles of Association",
       [ "company name"; "registered office"; "objects clause";
         "share capital"; "directors"; "shareholders";
         "amendment procedures" ]);
      ("Memorandum of Association",
       [ "company name"; "registered office"; "objects"; "liability";
         "share capital"; "subscribers" ]);
      ("Board Resolution",
       [ "date"; "directors present"; "resolution text"; "voting results";
         "signatures" ]) ].

Definition jurisdiction_error (m : string) : ComplianceIssue :=
  {| issue_type := "Jurisdiction Error";
     severity := "High";
     description :=
       String.append "Document references "
         (String.append m " instead of ADGM Courts");
     section := "Jurisdiction Clause";
     clause := m;
     adgm_reference := "ADGM Companies Regulations 2020, Art. 6";
     suggestion :=
       "Update jurisdiction clause to reference ADGM Courts exclusively" |}.

Definition missing_adgm_reference : ComplianceIssue :=
  {| issue_type := "Missing ADGM Reference";
     severity := "High";
     description := "Document does not reference ADGM jurisdiction";
     section := "Jurisdiction";
     clause := "No ADGM reference found";
     adgm_reference := "ADGM Companies Regulations 2020, Art. 6";
     suggestion := "Add explicit reference to ADGM jurisdiction and courts" |}.

Definition check_jurisdiction_compliance (content : string)
  : list ComplianceIssue :=
  let issues :=
    flat_map (fun pattern => map jurisdiction_error (Re.finditer pattern content))
             federal_court_patterns in
  let adgm_references :=
    fold_left (fun n pattern => n + List.length (Re.finditer pattern content))
              adgm_jurisdiction_patterns 0 in
  if Nat.eqb adgm_references 0 then (issues ++ [missing_adgm_reference])%list
  else issues.

Definition missing_required_clause (c : string) : ComplianceIssue :=
  {| issue_type := "Missing Required Clause";
     severity := "High";
     description :=
       String.append "Required clause '" (String.append c "' is missing");
     section := "Document Structure";
     clause := c;
     adgm_reference := "ADGM Companies Regulations 2020";
     suggestion :=
       String.append "Add "
         (String.append c " clause to comply with ADGM requirements") |}.

Definition check_required_clauses (document_type content : string)
  : list ComplianceIssue :=
  match required_clauses !! document_type with
  | None => []
  | Some required =>
      let content_lower := PyStr.lower content in
      flat_map (fun c => if PyStr.py_in c content_lower then []
                         else [missing_required_clause c])
               required
  end.

(** [prefix + '"' + quoted + '"'] *)
Definition with_quoted (prefix quoted : string) : string :=
  let dq := String (ascii_of_nat 34) EmptyString in
  String.append prefix (String.append dq (String.append quoted dq)).

Definition ambiguous_patterns : list (string * string) :=
  [ ("may\s+or\s+may\s+not", with_quoted "Ambiguous language - " "may or may not");
    ("at\s+our\s+discretion", "Vague discretionary language");
    ("reasonable\s+efforts?", with_quoted "Subjective standard - " "reasonable efforts");
    ("best\s+endeavours?", with_quoted "Subjective standard - " "best endeavours");
    ("subject\s+to\s+availability", "Conditional language without clear terms") ].

Definition ambiguous_language (descr m : string) : ComplianceIssue :=
  {| issue_type := "Ambiguous Language";
     severity := "Medium";
     description := descr;
     section := "Legal Language";
     clause := m;
     adgm_reference := "ADGM Commercial Regulations";
     suggestion := "Replace with specific, binding language" |}.

Definition check_legal_language (content : string) : list ComplianceIssue :=
  flat_map (fun '(pattern, descr) =>
              map (ambiguous_language descr) (Re.finditer pattern content))
           ambiguous_patterns.

Definition missing_title : ComplianceIssue :=
  {| issue_type := "Missing Title";
     severity := "Medium";
     description := "Document lacks a clear title";
     section := "Document Structure";
     clause := "No title found";
     adgm_reference := "ADGM Document Standards";
     suggestion := "Add a clear, descriptive document title" |}.

Definition poor_structure : ComplianceIssue :=
  {| issue_type := "Poor Structure";
     severity := "Low";
     description := "Document lacks proper sectioning";
     section := "Document Structure";
     clause := "Insufficient sections";
     adgm_reference := "ADGM Document Standards";
     suggestion := "Organize content into clear, numbered sections" |}.

Definition check_formatting_compliance (structure : gmap string pyval)
  : list ComplianceIssue :=
  ((if negb (truthy (structure !! "title")) then [missing_title] else [])
   ++ if Nat.ltb (len_or_empty (structure !! "sections")) 2 then [poor_structure]
      else [])%list.

(** [len([i for i in all_issues if i.severity == sev])] *)
Definition count_severity (sev : string) (all_issues : list ComplianceIssue)
  : nat :=
  List.length (List.filter (fun i => String.eqb (severity i) sev) all_issues).

(** The score before rounding, from the four counters. *)
Definition score_of_counts (total_checks high medium low : nat) : Q :=
  if Nat.eqb total_checks 0 then 100%Q
  else
    let weighted_score := high * 3 + medium * 2 + low * 1 in
    let max_possible_score := total_checks * 3 in
    Qmax 0 (Binary64.fsub 100
              (Binary64.fmul
                 (Binary64.fdiv (Qnat weighted_score)
                                (Qnat max_possible_score)) 100)).

Record ComplianceReport : Type := {
  compliance_score : Q;
  total_issues : nat;
  high_severity_issues : nat;
  medium_severity_issues : nat;
  low_severity_issues : nat;
  issues : list ComplianceIssue;
  is_compliant : bool
}.

(** The report built from the collected issues. *)
Definition report_of (all_issues : list ComplianceIssue) : ComplianceReport :=
  let total_checks := List.length all_issues in
  let high_severity := count_severity "High" all_issues in
  let medium_severity := count_severity "Medium" all_issues in
  let low_severity := count_severity "Low" all_issues in
  let score :=
    score_of_counts total_checks high_severity medium_severity low_severity in
  {| compliance_score := round2 score;
     total_issues := total_checks;
     high_severity_issues := high_severity;
     medium_severity_issues := medium_severity;
     low_severity_issues := low_severity;
     issues := all_issues;
     is_compliant := Qle_bool 80 score |}.

Definition check_compliance (document_type content : string)
    (structure : gmap string pyval) : ComplianceReport :=
  let all_issues :=
    (check_jurisdiction_compliance content
     ++ check_required_clauses document_type content
     ++ check_legal_language content
     ++ check_formatting_compliance structure)%list in
  report_of all_issues.

End ADGMComplianceChecker.

(** ** The checklist verifier ([checklist_verifier.py]) *)

Module DocumentChecklistVerifier.

Record DocumentRequirement : Type := {
  document_name : string;
  is_mandatory : bool;
  description : string;
  adgm_reference : string;
  content_keywords : list string
}.

Record ChecklistResult : Type := {
  process_type : string;
  documents_uploaded : nat;
  required_documents : nat;
  missing_documents : list string;
  completeness_percentage : Q;
  is_complete : bool
}.

Definition board_resolution (descr ref : string) : DocumentRequirement :=
  {| document_name := "Board Resolution";
     is_mandatory := true;
     description := descr;
     adgm_reference := ref;
     content_keywords :=
       [ "board resolution"; "board meeting"; "directors resolution";
         "board decision"; "directors decision" ] |}.

Definition company_incorporation : list DocumentRequirement :=
  [ Build_DocumentRequirement "Articles of Association" true
      "Constitutional document defining company structure"
      "ADGM Companies Regulations 2020, Art. 6"
      [ "articles of association"; "company articles"; "aoa"; "articles";
        "constitutional document"; "company structure" ];
    Build_DocumentRequirement "Memorandum of Association" true
      "Document establishing company and its objects"
      "ADGM Companies Regulations 2020, Art. 6"
      [ "memorandum of association"; "company memorandum"; "memorandum";
        "company objects"; "company establishment" ];
    board_resolution "Resolution authorizing incorporation"
      "ADGM Companies Regulations 2020, Art. 22";
    Build_DocumentRequirement "Shareholder Resolution" true
      "Resolution approving incorporation"
      "ADGM Companies Regulations 2020, Art. 15"
      [ "shareholder resolution"; "shareholders resolution";
        "member resolution"; "shareholder decision"; "member decision" ];
    Build_DocumentRequirement "Incorporation Application Form" true
      "Official application for company registration"
      "ADGM Companies Regulations 2020, Art. 6"
      [ "incorporation application"; "company registration";
        "incorporation form"; "registration application";
        "company formation" ];
    Build_DocumentRequirement "UBO Declaration Form" true
      "Ultimate Beneficial Owner declaration"
      "ADGM Companies Regulations 2020, Art. 45"
      [ "ubo declaration"; "ultimate beneficial owner"; "beneficial owner";
        "ubo form"; "ownership declaration" ];
    Build_DocumentRequirement "Register of Members and Directors" true
      "Register of company members and directors"
      "ADGM Companies Regulations 2020, Art. 22"
      [ "register of members"; "register of directors"; "members register";
        "directors register"; "company register" ];
    Build_DocumentRequirement "Change of Registered Address Notice" false
      "Notice of registered office address"
      "ADGM Companies Regulations 2020, Art. 8"
      [ "change of address"; "registered address"; "office address";
        "address change"; "registered office" ] ].

Definition business_licensing : list DocumentRequirement :=
  [ Build_DocumentRequirement "License Application Form" true
      "Application for business license"
      "ADGM Commercial Regulations, Art. 3"
      [ "license application"; "business license"; "licensing application";
        "permit application"; "business permit" ];
    Build_DocumentRequirement "Business Plan" true
      "Detailed business plan and projections"
      "ADGM Commercial Regulations, Art. 3"
      [ "business plan"; "business strategy"; "business proposal";
        "business model"; "business projections" ];
    Build_DocumentRequirement "Financial Statements" true
      "Audited financial statements"
      "ADGM Commercial Regulations, Art. 8"
      [ "financial statements"; "financial report"; "audited accounts";
        "financial accounts"; "balance sheet" ];
    Build_DocumentRequirement "Compliance Policy" true
      "Compliance and risk management policy"
      "ADGM Commercial Regulations, Art. 12"
      [ "compliance policy"; "risk management"; "compliance procedures";
        "risk policy"; "compliance framework" ];
    board_resolution "Resolution approving license application"
      "ADGM Commercial Regulations, Art. 3" ].

Definition employment_contracts : list DocumentRequirement :=
  [ Build_DocumentRequirement "Employment Contract" true
      "Standard employment agreement"
      "ADGM Employment Regulations"
      [ "employment contract"; "employment agreement"; "work contract";
        "employment terms"; "work agreement" ];
    Build_DocumentRequirement "Job Description" true
      "Detailed job role and responsibilities"
      "ADGM Employment Regulations"
      [ "job description"; "role description"; "position description";
        "job responsibilities"; "role requirements" ];
    Build_DocumentRequirement "Company Policies" false
      "Relevant company policies and procedures"
      "ADGM Employment Regulations"
      [ "company policies"; "company procedures"; "workplace policies";
        "employment policies"; "company rules" ];
    board_resolution "Resolution approving employment terms"
      "ADGM Employment Regulations" ].

Definition commercial_agreements : list DocumentRequirement :=
  [ Build_DocumentRequirement "Commercial Agreement" true
      "Main commercial contract"
      "ADGM Commercial Regulations"
      [ "commercial agreement"; "commercial contract"; "business agreement";
        "commercial terms"; "business contract" ];
    Build_DocumentRequirement "Due Diligence Report" true
      "Due diligence findings"
      "ADGM Commercial Regulations"
      [ "due diligence"; "due diligence report"; "diligence findings";
        "investigation report"; "background check" ];
    board_resolution "Resolution approving agreement"
      "ADGM Commercial Regulations";
    Build_DocumentRequirement "Legal Opinion" false
      "Legal opinion on agreement terms"
      "ADGM Commercial Regulations"
      [ "legal opinion"; "legal advice"; "legal assessment"; "legal review";
        "legal counsel" ] ].

Definition process_checklists : gmap string (list DocumentRequirement) :=
  list_to_map
    [ ("Company Incorporation", company_incorporation);
      ("Business Licensing", business_licensing);
      ("Employment Contracts", employment_contracts);
      ("Commercial Agreements", commercial_agreements) ].

(** [any(keyword.lower() in haystack for keyword in keywords)], the
    [for ... if ...: return True] loops of [match_document_type]. *)
Definition keyword_in (keywords : list string) (haystack : string) : bool :=
  existsb (fun keyword => PyStr.py_in (PyStr.lower keyword) haystack) keywords.

Definition match_document_type (text filename : string)
    (required_doc : DocumentRequirement) : bool :=
  let text_lower := PyStr.lower text in
  if keyword_in (content_keywords required_doc) text_lower then true
  else
    let normalized_filename := _normalize_filename filename in
    let normalized_required :=
      _normalize_filename (document_name required_doc) in
    if String.eqb normalized_filename normalized_required then true
    else if keyword_in (content_keywords required_doc) (PyStr.lower filename)
    then true
    else false.

(** [x in names] for a list literal. *)
Definition in_list (x : string) (names : list string) : bool :=
  existsb (String.eqb x) names.

(** [d[k] += n] on a dictionary kept in insertion order. *)
Fixpoint dict_add (k : string) (n : nat) (d : list (string * nat))
  : list (string * nat) :=
  match d with
  | [] => []
  | (k', v) :: d' =>
      if String.eqb k' k then (k', v + n) :: d' else (k', v) :: dict_add k n d'
  end.

(** [max(d, key=d.get)]: the first key with the greatest value; [None]
    stands for the [ValueError] of an empty dictionary. *)
Definition max_key (d : list (string * nat)) : option string :=
  match d with
  | [] => None
  | kv :: d' =>
      Some (fst (fold_left
                   (fun best kv' => if Nat.ltb (snd best) (snd kv') then kv'
                                    else best)
                   d' kv))
  end.

Definition initial_scores : list (string * nat) :=
  [ ("Company Incorporation", 0);
    ("Business Licensing", 0);
    ("Employment Contracts", 0);
    ("Commercial Agreements", 0) ].

(** One round of the scoring loop. *)
Definition score_document (process_scores : list (string * nat))
    (doc_type : string) : list (string * nat) :=
  let process_scores :=
    if in_list doc_type ["Articles of Association"; "Memorandum of Association"]
    then dict_add "Company Incorporation" 3 process_scores
    else if in_list doc_type ["License Application Form"; "Business Plan"]
    then dict_add "Business Licensing" 3 process_scores
    else if in_list doc_type ["Employment Contract"; "Job Description"]
    then dict_add "Employment Contracts" 3 process_scores
    else if in_list doc_type ["Commercial Agreement"; "Due Diligence Report"]
    then dict_add "Commercial Agreements" 3 process_scores
    else process_scores in
  if String.eqb doc_type "Board Resolution"
  then map (fun '(process, v) => (process, v + 1)) process_scores
  else process_scores.

(** [d.get(k, '')] *)
Definition get_str (d : gmap string string) (k : string) : string :=
  default "" (d !! k).

Definition identify_process_type (uploaded_documents : list (gmap string string))
  : option string :=
  let document_types :=
    map (fun doc => get_str doc "document_type") uploaded_documents in
  max_key (fold_left score_document document_types initial_scores).

Fixpoint _find_matching_document (uploaded_filename : string)
    (required_document_names : list string) : option string :=
  match required_document_names with
  | [] => None
  | required_name :: names =>
      if String.eqb (_normalize_filename uploaded_filename)
                    (_normalize_filename required_name)
      then Some required_name
      else _find_matching_document uploaded_filename names
  end.

(** The content-matching [for required_doc in required_docs: ... break]. *)
Fixpoint content_match (text_content uploaded_filename : string)
    (required_docs : list DocumentRequirement) (found_documents : gset string)
  : gset string :=
  match required_docs with
  | [] => found_documents
  | required_doc :: rest =>
      if is_mandatory required_doc
         && negb (bool_decide (document_name required_doc ∈ found_documents))
         && match_document_type text_content uploaded_filename required_doc
      then {[document_name required_doc]} ∪ found_documents
      else content_match text_content uploaded_filename rest found_documents
  end.

(** The file name fallback block. *)
Definition filename_fallback (text_content uploaded_filename : string)
    (required_docs : list DocumentRequirement) (mandatory_docs : list string)
    (found_documents : gset string) : gset string :=
  if negb (existsb (match_document_type text_content uploaded_filename)
                   (List.filter is_mandatory required_docs))
  then
    match _find_matching_document uploaded_filename mandatory_docs with
    | Some matching_doc =>
        if negb (String.eqb matching_doc "")
           && negb (bool_decide (matching_doc ∈ found_documents))
        then {[matching_doc]} ∪ found_documents
        else found_documents
    | None => found_documents
    end
  else found_documents.

(** What the loop of [verify_checklist] carries: the set of found
    documents, and the paths handed to the document processor so far. *)
Record loop_state : Type := {
  found_documents : gset string;
  extracted_paths : list string
}.

Section Verify.

(** [DocumentProcessor.extract_text]; [None] when it raises. *)
Variable extract_text : string -> option string.

Definition extract_docx_text (file_path : string) : string :=
  default "" (extract_text file_path).

(** One round of the loop over the uploaded documents; [fallback] is the
    file name fallback block. *)
Definition upload_step
    (fallback : string -> string -> list DocumentRequirement -> list string ->
                gset string -> gset string)
    (required_docs : list DocumentRequirement) (mandatory_docs : list string)
    (st : loop_state) (uploaded_doc : gmap string string) : loop_state :=
  let uploaded_filename := get_str uploaded_doc "file_name" in
  let file_path := get_str uploaded_doc "file_path" in
  if String.eqb uploaded_filename "" || String.eqb file_path "" then st
  else
    let text_content := extract_docx_text file_path in
    let found :=
      content_match text_content uploaded_filename required_docs
                    (found_documents st) in
    {| found_documents :=
         fallback text_content uploaded_filename required_docs mandatory_docs
                  found;
       extracted_paths := (extracted_paths st ++ [file_path])%list |}.

Definition run_loop fallback required_docs mandatory_docs
    (uploaded_documents : list (gmap string string)) : loop_state :=
  fold_left (upload_step fallback required_docs mandatory_docs)
            uploaded_documents
            {| found_documents := ∅; extracted_paths := [] |}.

(** The result built after the loop. *)
Definition checklist_of (process_type : string)
    (uploaded_documents : list (gmap string string))
    (mandatory_docs : list string) (found : gset string) : ChecklistResult :=
  let missing_docs :=
    List.filter (fun doc => negb (bool_decide (doc ∈ found))) mandatory_docs in
  let total_mandatory := List.length mandatory_docs in
  let uploaded_mandatory := size found in
  let completeness_percentage :=
    if Nat.ltb 0 total_mandatory
    then Binary64.fmul
           (Binary64.fdiv (Qnat uploaded_mandatory) (Qnat total_mandatory))
           100
    else 0%Q in
  {| process_type := process_type;
     documents_uploaded := List.length uploaded_documents;
     required_documents := total_mandatory;
     missing_documents := missing_docs;
     completeness_percentage := round2 completeness_percentage;
     is_complete := Nat.eqb (List.length missing_docs) 0 |}.

Definition verify_with fallback (uploaded_documents : list (gmap string string))
  : option (ChecklistResult * list string) :=
  match uploaded_documents with
  | [] =>
      Some ({| process_type := "Unknown";
               documents_uploaded := 0;
               required_documents := 0;
               missing_documents := [];
               completeness_percentage := 0;
               is_complete := false |}, [])
  | _ =>
      process_type ← identify_process_type uploaded_documents;
      match process_checklists !! process_type with
      | None =>
          Some ({| process_type := "Unknown Process";
                   documents_uploaded := List.length uploaded_documents;
                   required_documents := 0;
                   missing_documents := [];
                   completeness_percentage := 0;
                   is_complete := false |}, [])
      | Some required_docs =>
          let mandatory_docs :=
            map document_name (List.filter is_mandatory required_docs) in
          let st :=
            run_loop fallback required_docs mandatory_docs uploaded_documents in
          Some (checklist_of process_type uploaded_documents mandatory_docs
                             (found_documents st),
                extracted_paths st)
      end
  end.

(** [verify_checklist] together with the paths it had extracted. *)
Definition verify_checklist_run := verify_with filename_fallback.

Definition verify_checklist (uploaded_documents : list (gmap string string))
  : option ChecklistResult :=
  fst <$> verify_checklist_run uploaded_documents.

(** [verify_checklist] with the file name fallback block removed. *)
Definition verify_checklist_no_fallback
    (uploaded_documents : list (gmap string string)) : option ChecklistResult :=
  fst <$> verify_with (fun _ _ _ _ found => found) uploaded_documents.

End Verify.

End DocumentChecklistVerifier.

(** ** Notions used in the statements *)

(** The shape of a normalised file name: words without white space,
    upper-case letters or separators, with one space between them. *)

Module NormalForm.

Import PyStr.

(** Every character of [s] satisfies [P]. *)
Fixpoint string_forall (P : ascii -> bool) (s : string) : bool :=
  match s with
  | EmptyString => true
  | String c s' => P c && string_forall P s'
  end.

(** A character that lower-casing and the three replacements keep. *)
Definition plain (c : ascii) : bool :=
  Ascii.eqb (lower_char c) c
  && negb (Ascii.eqb c "_") && negb (Ascii.eqb c "-")
  && negb (Ascii.eqb c ".").

(** A character that may stand in a word of a normalised name. *)
Definition clean (c : ascii) : bool := plain c && negb (is_space c).

(** Words of clean characters separated by single spaces; [prev] tells
    whether the character before was clean. *)
Fixpoint nf (prev : bool) (s : string) : bool :=
  match s with
  | EmptyString => prev
  | String c s' =>
      if clean c then nf true s' else Ascii.eqb c " " && prev && nf false s'
  end.

(** [s] is empty or is a sequence of clean words, one space apart. *)
Definition normal (s : string) : bool :=
  match s with
  | EmptyString => true
  | _ => nf false s
  end.

(** The three [replace] calls on one character. *)
Definition replace_seps (c : ascii) : ascii :=
  let c1 := if Ascii.eqb c "_" then " "%char else c in
  let c2 := if Ascii.eqb c1 "-" then " "%char else c1 in
  if Ascii.eqb c2 "." then " "%char else c2.

(** A non-empty word of clean characters. *)
Definition clean_word (w : string) : Prop :=
  w <> EmptyString /\ string_forall clean w = true.

(** Each word with a space before it. *)
Fixpoint spaced (ws : list string) : string :=
  match ws with
  | [] => EmptyString
  | w :: ws' => String " " (String.append w (spaced ws'))
  end.

End NormalForm.

Import ADGMComplianceChecker DocumentChecklistVerifier.

(** The keys of [process_checklists], in the order of the source. *)
Definition catalog_keys : list string :=
  [ "Company Incorporation"; "Business Licensing"; "Employment Contracts";
    "Commercial Agreements" ].

(** [[doc.document_name for doc in required_docs if doc.is_mandatory]] *)
Definition mandatory_names (required_docs : list DocumentRequirement)
  : list string :=
  map document_name (List.filter is_mandatory required_docs).

(** The entry [k] of a descriptor is missing or is the empty string. *)
Definition missing_or_empty (d : gmap string string) (k : string) : bool :=
  match d !! k with
  | None => true
  | Some v => String.eqb v ""
  end.

(** A descriptor without a usable 'file_name' or 'file_path'. *)
Definition skipped (d : gmap string string) : bool :=
  missing_or_empty d "file_name" || missing_or_empty d "file_path".

(** The descriptors that are not skipped, in upload order. *)
Definition usable (docs : list (gmap string string))
  : list (gmap string string) :=
  List.filter (fun d => negb (skipped d)) docs.

(** [needle] occurs in [hay]. *)
Definition substring_of (needle hay : string) : Prop :=
  exists pre post, hay = String.append pre (String.append needle post).

(** The binary64 numbers of the kernel, to compare [Binary64] with. *)

Module KernelFloat.

Import Floats.

(** The rational number held by a finite float. *)
Definition Q_of_float (f : float) : Q :=
  match Prim2SF f with
  | S754_finite sign m e =>
      ((if sign then -1 else 1) * inject_Z (Zpos m) * 2 ^ e)%Q
  | _ => 0%Q
  end.

(** [100 - (w / m) * 100] on the floats of the kernel. *)
Definition penalty (w m : float) : float := (100 - (w / m) * 100)%float.

(** Pairs of a weighted count and a greatest possible count. *)
Definition samples : list (float * float) :=
  [ (8127, 12000); (1, 3); (2, 3); (5, 9); (27, 27); (8001, 12000);
    (261, 480); (279, 480) ]%float.

End KernelFloat.

(** The relative error of one float operation. *)
Definition eps : Q := 1 # (2 ^ 53).

(** The score of a document with issues, from the exact ratio
    [weighted / max_possible]. *)
Definition penalised (q : Q) : Q :=
  Qmax 0 (Binary64.fsub 100 (Binary64.fmul (Binary64.fl q) 100)).

(** The three severities that the score counts. *)
Definition known_severity (i : ComplianceIssue) : Prop :=
  severity i = "High" \/ severity i = "Medium" \/ severity i = "Low".

(** The score as the contract words it, in exact arithmetic: 100
    without issues, and otherwise
    [max(0, 100 - 100 * weighted / max_possible)] rounded to 2 decimals,
    with [weighted = 3 high + 2 medium + 1 low] and
    [max_possible = 3 total]. *)
Definition contract_score (high medium low : nat) : Q :=
  let total := high + medium + low in
  if Nat.eqb total 0 then 100%Q
  else
    let weighted := 3 * high + 2 * medium + 1 * low in
    let max_possible := 3 * total in
    round2 (Qmax 0 (100 - 100 * Qnat weighted / Qnat max_possible))%Q.

(** [s * n] *)
Fixpoint repeat_text (s : string) (n : nat) : string :=
  match n with
  | O => EmptyString
  | S n' => String.append s (repeat_text s n')
  end.

(** A text with 126 forbidden court references and 3872 vague phrases,
    and a structure with two sections and no title. *)
Definition tie_text : string :=
  String.append (repeat_text "Dubai Courts " 126)
                (repeat_text "best endeavours " 3872).

Definition tie_structure : gmap string pyval :=
  {[ "sections" := PList [PStr "1. TERM"; PStr "2. RENT"] ]}.

(** The report expected for the "UAE Federal Courts" scenario. *)
Definition scenario_outcome (r : ComplianceReport) : Prop :=
  total_issues r = 9
  /\ high_severity_issues r = 9
  /\ medium_severity_issues r = 0
  /\ low_severity_issues r = 0
  /\ map severity (issues r) = repeat "High" 9
  /\ map issue_type (issues r)
     = "Jurisdiction Error" :: "Missing ADGM Reference"
       :: repeat "Missing Required Clause" 7
  /\ map clause (issues r)
     = [ "UAE Federal Courts"; "No ADGM reference found"; "company name";
         "registered office"; "objects clause"; "share capital"; "directors";
         "shareholders"; "amendment procedures" ]
  /\ (compliance_score r == 0)%Q
  /\ is_compliant r = false.

(** A structure with a title and two sections. *)
Definition sample_structure : gmap string pyval :=
  {[ "title" := PStr "Articles of Association";
     "sections" := PList [PStr "1. NAME"; PStr "2. OFFICE"] ]}.

(** Two uploads with a file name and a path, and one without a path. *)
Definition sample_uploads : list (gmap string string) :=
  [ {[ "file_name" := "Articles_of_Association.docx";
       "file_path" := "/uploads/aoa.docx";
       "document_type" := "Articles of Association" ]};
    {[ "file_name" := "minutes.docx";
       "file_path" := "/uploads/minutes.docx";
       "document_type" := "Board Resolution" ]};
    {[ "file_name" := "Memorandum of Association.docx";
       "document_type" := "Memorandum of Association" ]} ].

(** A document processor that reads one of the sample files. *)
Definition sample_extract (file_path : string) : option string :=
  if String.eqb file_path "/uploads/minutes.docx"
  then Some "Minutes of the Board Meeting"
  else None.

(** * The rest of the code *)

(** ** The rest of the checklist verifier ([checklist_verifier.py]) *)

(** [str(n)] for an [int] that is not negative. *)
Definition py_str (n : nat) : string :=
  DecimalString.NilEmpty.string_of_uint (Nat.to_uint n).

(** The pieces of an f-string, put together. *)
Definition fstring (pieces : list string) : string :=
  fold_right String.append EmptyString pieces.

(** [d.get(k)] on a dictionary kept in insertion order. *)
Fixpoint dict_get {A : Type} (k : string) (d : list (string * A)) : option A :=
  match d with
  | [] => None
  | (k', v) :: d' => if String.eqb k' k then Some v else dict_get k d'
  end.

Definition descriptions : list (string * string) :=
  [ ("Company Incorporation",
     "You are attempting to incorporate a company in ADGM");
    ("Business Licensing",
     "You are applying for a business license in ADGM");
    ("Employment Contracts",
     "You are setting up employment contracts for ADGM operations");
    ("Commercial Agreements",
     "You are establishing commercial agreements for ADGM business") ].

Definition get_process_description (process_type : string) : string :=
  default "Unknown legal process" (dict_get process_type descriptions).

Definition generate_user_message (result : ChecklistResult) : string :=
  let process_desc := get_process_description (process_type result) in
  if is_complete result then
    fstring
      [ "Excellent! "; process_desc; ". You have uploaded all ";
        py_str (required_documents result);
        " required documents. Your submission is complete and ready for review." ]
  else
    let missing_list :=
      PyStr.join ", "
        (map (fun doc => fstring ["'"; doc; "'"]) (missing_documents result)) in
    fstring
      [ process_desc; ". Based on our reference list, you have uploaded ";
        py_str (documents_uploaded result); " out of ";
        py_str (required_documents result);
        " required documents. The missing document(s) appear to be: ";
        missing_list; "." ].

(** [get_adgm_references]; the list made from the set has no order of
    its own, and the set stands for it. *)
Definition get_adgm_references (process_type : string) : gset string :=
  match process_checklists !! process_type with
  | None => ∅
  | Some required_docs =>
      fold_left
        (fun (references : gset string) doc_req =>
           if negb (String.eqb (DocumentChecklistVerifier.adgm_reference doc_req) "")
           then {[DocumentChecklistVerifier.adgm_reference doc_req]} ∪ references
           else references)
        required_docs ∅
  end.

(** ** Document classification ([DocumentProcessor.identify_document_type]) *)

(** [any(keyword in content_lower for keyword in keywords)] *)
Definition any_in (keywords : list string) (content_lower : string) : bool :=
  existsb (fun keyword => PyStr.py_in keyword content_lower) keywords.

Definition identify_document_type (content : string)
    (structure : gmap string pyval) : string :=
  let content_lower := PyStr.lower content in
  if any_in ["articles of association"; "memorandum of association"]
            content_lower
  then "Articles of Association"
  else if PyStr.py_in "memorandum" content_lower
          && PyStr.py_in "association" content_lower
  then "Memorandum of Association"
  else if PyStr.py_in "board resolution" content_lower
  then "Board Resolution"
  else if PyStr.py_in "shareholder resolution" content_lower
  then "Shareholder Resolution"
  else if PyStr.py_in "incorporation application" content_lower
  then "Incorporation Application"
  else if PyStr.py_in "ubo declaration" content_lower
  then "UBO Declaration"
  else if PyStr.py_in "register of members" content_lower
  then "Register of Members and Directors"
  else if PyStr.py_in "change of registered address" content_lower
  then "Change of Registered Address Notice"
  else if any_in ["license"; "licensing"; "regulatory"] content_lower
  then "Regulatory Filing"
  else if any_in ["employment"; "hr"; "contract"] content_lower
  then "Employment Contract"
  else if any_in ["commercial"; "agreement"; "partnership"] content_lower
  then "Commercial Agreement"
  else if any_in ["compliance"; "risk"; "policy"] content_lower
  then "Compliance Policy"
  else "Unknown Document Type".

(** The descriptor that [process_document] builds for a file, with the
    entries that the checklist verifier reads. *)
Definition descriptor (file_path file_name content : string)
    (structure : gmap string pyval) : gmap string string :=
  {[ "file_path" := file_path;
     "file_name" := file_name;
     "document_type" := identify_document_type content structure;
     "text_content" := content ]}.

(** ** The knowledge base ([rag_engine.py]) *)

Module RAGEngine.

Record LegalReference : Type := {
  title : string;
  content : string;
  source : string;
  article : string;
  category : string
}.

Definition legal_knowledge_base : list (string * list LegalReference) :=
  [ ("company_formation",
     [ Build_LegalReference "Company Formation Requirements"
         "Companies must have a registered office in ADGM, minimum share capital as specified, and comply with corporate governance standards."
         "ADGM Companies Regulations 2020" "Art. 6" "Formation";
       Build_LegalReference "Articles of Association"
         "Must include company name, registered office, objects clause, share capital structure, director qualifications, and amendment procedures."
         "ADGM Companies Regulations 2020" "Art. 6" "Formation";
       Build_LegalReference "Director Qualifications"
         "Directors must be at least 18 years old, not disqualified, and meet fit and proper person criteria."
         "ADGM Companies Regulations 2020" "Art. 22" "Governance" ]);
    ("compliance",
     [ Build_LegalReference "Compliance Requirements"
         "Companies must maintain proper books and records, file annual returns, and comply with ongoing reporting obligations."
         "ADGM Companies Regulations 2020" "Art. 45" "Compliance";
       Build_LegalReference "Reporting Obligations"
         "Annual financial statements, director reports, and changes in company structure must be reported to ADGM."
         "ADGM Companies Regulations 2020" "Art. 45" "Compliance" ]);
    ("commercial_regulations",
     [ Build_LegalReference "Business Licensing"
         "Business activities require appropriate licenses and compliance with sector-specific regulations."
         "ADGM Commercial Regulations" "Art. 3" "Licensing";
       Build_LegalReference "Risk Management"
         "Companies must implement appropriate risk management and compliance policies."
         "ADGM Commercial Regulations" "Art. 12" "Compliance" ]);
    ("jurisdiction",
     [ Build_LegalReference "ADGM Jurisdiction"
         "All legal matters, disputes, and compliance issues fall under ADGM Courts jurisdiction, not UAE Federal Courts."
         "ADGM Companies Regulations 2020" "Art. 6" "Jurisdiction";
       Build_LegalReference "Court System"
         "ADGM operates its own court system with specialized commercial and civil courts."
         "ADGM Court Regulations" "Art. 1" "Jurisdiction" ]) ].

Definition adgm_links : list (string * string) :=
  [ ("main_website", "https://www.adgm.com");
    ("companies_regulations",
     "https://www.adgm.com/operating-in-adgm/legal-framework/companies-regulations-2020");
    ("commercial_regulations",
     "https://www.adgm.com/operating-in-adgm/legal-framework/commercial-regulations");
    ("court_system",
     "https://www.adgm.com/operating-in-adgm/legal-framework/court-system");
    ("licensing",
     "https://www.adgm.com/operating-in-adgm/doing-business-licensing");
    ("compliance",
     "https://www.adgm.com/operating-in-adgm/operating-compliance") ].

(** [a + b] on floats. *)
Definition fadd (a b : Q) : Q := Binary64.fl (a + b).

Definition _calculate_relevance_score (query : string)
    (reference : LegalReference) : Q :=
  let score := 0%Q in
  let score :=
    if PyStr.py_in query (PyStr.lower (title reference))
    then fadd score 10 else score in
  let score :=
    if PyStr.py_in query (PyStr.lower (content reference))
    then fadd score 5 else score in
  if PyStr.py_in query (PyStr.lower (article reference))
  then fadd score 2 else score.

(** Where [x] goes in a list sorted from the greatest key down: behind
    the elements whose key is as great. *)
Fixpoint insert_desc {A : Type} (key : A -> Q) (x : A) (l : list A) : list A :=
  match l with
  | [] => [x]
  | y :: l' =>
      if Qle_bool (key x) (key y) then y :: insert_desc key x l'
      else x :: l
  end.

(** [l.sort(key=key, reverse=True)]: a stable sort, greatest key first. *)
Definition sort_desc {A : Type} (key : A -> Q) (l : list A) : list A :=
  fold_left (fun sorted x => insert_desc key x sorted) l [].

(** The condition of the search on one reference. *)
Definition mentions (query_lower : string) (reference : LegalReference) : bool :=
  PyStr.py_in query_lower (PyStr.lower (title reference))
  || PyStr.py_in query_lower (PyStr.lower (content reference))
  || PyStr.py_in query_lower (PyStr.lower (article reference)).

(** [category] is [None] when the argument is left out or is not truthy. *)
Definition search_legal_knowledge (query : string) (category : option string)
  : list LegalReference :=
  let query_lower := PyStr.lower query in
  let categories_to_search :=
    match category with
    | Some cat => if String.eqb cat "" then map fst legal_knowledge_base
                  else [cat]
    | None => map fst legal_knowledge_base
    end in
  let results :=
    flat_map
      (fun cat =>
         match dict_get cat legal_knowledge_base with
         | Some references => List.filter (mentions query_lower) references
         | None => []
         end)
      categories_to_search in
  firstn 5 (sort_desc (_calculate_relevance_score query_lower) results).

Definition get_compliance_guidance (document_type issue_type : string)
  : list LegalReference :=
  let query := fstring [document_type; " "; issue_type] in
  if PyStr.py_in "jurisdiction" (PyStr.lower issue_type)
  then search_legal_knowledge query (Some "jurisdiction")
  else if PyStr.py_in "formation" (PyStr.lower issue_type)
  then search_legal_knowledge query (Some "company_formation")
  else if PyStr.py_in "compliance" (PyStr.lower issue_type)
  then search_legal_knowledge query (Some "compliance")
  else search_legal_knowledge query None.

Definition generate_legal_citation (reference : LegalReference) : string :=
  fstring [source reference; ", "; article reference].

Definition category_links : list (string * list string) :=
  [ ("company_formation", ["main_website"; "companies_regulations"; "licensing"]);
    ("compliance", ["compliance"; "companies_regulations"]);
    ("commercial", ["commercial_regulations"; "licensing"]);
    ("jurisdiction", ["court_system"; "companies_regulations"]) ].

Definition get_adgm_links_for_category (category : string) : list string :=
  let relevant_links := default [] (dict_get category category_links) in
  flat_map (fun link => match dict_get link adgm_links with
                        | Some url => [url]
                        | None => []
                        end)
           relevant_links.

Definition _determine_issue_category (issue : gmap string string) : string :=
  let issue_type := PyStr.lower (get_str issue "type") in
  if PyStr.py_in "jurisdiction" issue_type then "jurisdiction"
  else if PyStr.py_in "formation" issue_type || PyStr.py_in "clause" issue_type
  then "company_formation"
  else if PyStr.py_in "compliance" issue_type then "compliance"
  else "commercial".

(** One entry of 'legal_references'. *)
Record citation : Type := {
  cited_title : string;
  cited_content : string;
  cited_source : string;
  cited_article : string;
  cited_as : string
}.

(** An issue after the pass: the copied dictionary, and the two entries
    that the pass adds when it finds guidance. *)
Record enhanced_issue : Type := {
  copied : gmap string string;
  legal_references : option (list citation);
  links : option (list string)
}.

Definition enhance_issue (issue : gmap string string) : enhanced_issue :=
  let guidance :=
    get_compliance_guidance (get_str issue "document_type")
                            (get_str issue "type") in
  match guidance with
  | [] => {| copied := issue; legal_references := None; links := None |}
  | _ =>
      {| copied := issue;
         legal_references :=
           Some (map (fun ref =>
                        {| cited_title := title ref;
                           cited_content := content ref;
                           cited_source := source ref;
                           cited_article := article ref;
                           cited_as := generate_legal_citation ref |})
                     guidance);
         links :=
           Some (get_adgm_links_for_category (_determine_issue_category issue)) |}
  end.

Definition enhance_compliance_analysis (issues : list (gmap string string))
  : list enhanced_issue :=
  map enhance_issue issues.

End RAGEngine.

(** The dictionary that [check_compliance] returns for an issue. *)
Definition issue_dict (issue : ComplianceIssue) : gmap string string :=
  {[ "type" := issue_type issue;
     "severity" := severity issue;
     "description" := ADGMComplianceChecker.description issue;
     "section" := section issue;
     "clause" := clause issue;
     "adgm_reference" := ADGMComplianceChecker.adgm_reference issue;
     "suggestion" := suggestion issue ]}.

(** ** Where a comment goes ([CommentGenerator._find_target_paragraph]) *)

Module CommentGenerator.

(** Index of the first element that satisfies [test]. *)
Fixpoint first_index {A : Type} (test : A -> bool) (l : list A) : option nat :=
  match l with
  | [] => None
  | x :: l' => if test x then Some 0 else S <$> first_index test l'
  end.

Definition _extract_keywords_from_issue (issue : gmap string string)
  : list string :=
  let description := get_str issue "description" in
  ((if PyStr.py_in "jurisdiction" (PyStr.lower description)
    then ["jurisdiction"; "courts"; "legal"] else [])
   ++ (if PyStr.py_in "clause" (PyStr.lower description)
       then ["clause"; "section"; "article"] else [])
   ++ (if PyStr.py_in "director" (PyStr.lower description)
       then ["director"; "board"; "management"] else [])
   ++ (if PyStr.py_in "shareholder" (PyStr.lower description)
       then ["shareholder"; "member"; "ownership"] else []))%list.

(** The paragraphs of the document are given by their texts; the result
    is the index of the paragraph that the source returns. *)
Definition _find_target_paragraph (paragraphs : list string)
    (issue : gmap string string) : option nat :=
  let section := get_str issue "section" in
  let clause := get_str issue "clause" in
  let by_text (needle : string) :=
    first_index (fun text => PyStr.py_in (PyStr.lower needle) (PyStr.lower text))
                paragraphs in
  let by_section :=
    if String.eqb section "" then None else by_text section in
  match by_section with
  | Some i => Some i
  | None =>
      let by_clause :=
        if String.eqb clause "" then None else by_text clause in
      match by_clause with
      | Some i => Some i
      | None =>
          let keywords := _extract_keywords_from_issue issue in
          match first_index
                  (fun text =>
                     existsb (fun keyword =>
                                PyStr.py_in (PyStr.lower keyword)
                                            (PyStr.lower text))
                             keywords)
                  paragraphs with
          | Some i => Some i
          | None =>
              first_index
                (fun text => negb (String.eqb (PyStr.strip text) ""))
                paragraphs
          end
      end
  end.

(** [_format_comment_text] *)
Definition _format_comment_text
    (issue_type severity description section adgm_reference suggestion : string)
  : string :=
  let comment_parts :=
    ([ fstring ["ISSUE: "; issue_type];
       fstring ["SEVERITY: "; severity];
       "";
       fstring ["DESCRIPTION: "; description];
       "" ]
     ++ (if String.eqb section "" then []
         else [fstring ["SECTION: "; section]])
     ++ (if String.eqb adgm_reference "" then []
         else [fstring ["ADGM REFERENCE: "; adgm_reference]])
     ++ [""]
     ++ (if String.eqb suggestion "" then []
         else [fstring ["SUGGESTION: "; suggestion]]))%list in
  PyStr.join (String (ascii_of_nat 10) EmptyString) comment_parts.

End CommentGenerator.

(** ** Notions used in the statements about the rest of the code *)

(** The matches of the forbidden court patterns, of the ADGM patterns
    and of the ambiguous phrases, pattern after pattern. *)
Definition forbidden_matches (content : string) : list string :=
  flat_map (fun pattern => Re.finditer pattern content) federal_court_patterns.

Definition adgm_matches (content : string) : list string :=
  flat_map (fun pattern => Re.finditer pattern content)
           adgm_jurisdiction_patterns.

Definition ambiguous_matches (content : string) : list string :=
  flat_map (fun '(pattern, _) => Re.finditer pattern content)
           ambiguous_patterns.


(** The dictionary of the scoring loop with the four scores. *)
Definition scores (incorporation licensing employment commercial : nat)
  : list (string * nat) :=
  [ ("Company Incorporation", incorporation);
    ("Business Licensing", licensing);
    ("Employment Contracts", employment);
    ("Commercial Agreements", commercial) ].

(** The document types that count three points for a process. *)
Definition anchor_types : list string :=
  [ "Articles of Association"; "Memorandum of Association";
    "License Application Form"; "Business Plan";
    "Employment Contract"; "Job Description";
    "Commercial Agreement"; "Due Diligence Report" ].

(** A file as the application processes it: path, base name, text and
    structure. *)
Definition processed_file : Type :=
  (string * string * string * gmap string pyval)%type.

Definition descriptor_of (f : processed_file) : gmap string string :=
  let '(file_path, file_name, content, structure) := f in
  descriptor file_path file_name content structure.

(** [a] may stand before [b] in a list sorted from the greatest key down. *)
Definition descending {A : Type} (key : A -> Q) (a b : A) : Prop :=
  (key b <= key a)%Q.

(** Every reference of the knowledge base. *)
Definition all_references : list RAGEngine.LegalReference :=
  flat_map snd RAGEngine.legal_knowledge_base.

(** The issue types that the compliance checker gives. *)
Definition checker_issue_types : list string :=
  [ "Jurisdiction Error"; "Missing ADGM Reference"; "Missing Required Clause";
    "Ambiguous Language"; "Missing Title"; "Poor Structure" ].

(** How many uploads have a document type among [names]. *)
Definition count_types (names : list string)
    (uploaded_documents : list (gmap string string)) : nat :=
  List.length
    (List.filter (fun doc => in_list (get_str doc "document_type") names)
                 uploaded_documents).


(** * Properties *)

(** ** The definitions on sample inputs *)

Example normalize_mixed_separators :
  _normalize_filename "  my-File.v2.Final.pdf  " = "my file v2 final".
Proof. reflexivity. Qed.

Example normalize_first_extension_only :
  _normalize_filename "a  b.txt.doc" = "a b txt"
  /\ _normalize_filename ".docx" = "".
Proof. split; reflexivity. Qed.

Example finditer_ignores_case_and_spacing :
  Re.finditer "ADGM\s+Courts?" "the adgm  courts, or an ADGM Court; ADGMCourt"
  = ["adgm  courts"; "ADGM Court"].
Proof. reflexivity. Qed.

Example ambiguous_phrase_repeated :
  map clause (check_legal_language
                "Reasonable efforts, best endeavour and reasonable effort")
  = ["Reasonable efforts"; "reasonable effort"; "best endeavour"].
Proof. reflexivity. Qed.

Example round2_ties_to_even :
  (round2 (3125 # 1000) == 312 # 100)%Q /\ (round2 (3135 # 1000) == 314 # 100)%Q.
Proof. split; reflexivity. Qed.

Example binary64_one_third :
  (Binary64.fdiv 1 3 == 6004799503160661 # 18014398509481984)%Q
  /\ (Binary64.fmul (Binary64.fdiv 1 3) 100
      == 2345624805922133 # 70368744177664)%Q
  /\ (Binary64.fsub 100 (Binary64.fmul (Binary64.fdiv 1 3) 100)
      == 4691249611844267 # 70368744177664)%Q.
Proof. repeat split; vm_compute; reflexivity. Qed.

(** The operations of [Binary64] and the binary64 operations of the
    kernel give the same numbers. *)
Example binary64_agrees_with_kernel_floats :
  Forall
    (fun '(w, m) =>
       let qw := KernelFloat.Q_of_float w in
       let qm := KernelFloat.Q_of_float m in
       (KernelFloat.Q_of_float (KernelFloat.penalty w m)
        == Binary64.fsub 100 (Binary64.fmul (Binary64.fdiv qw qm) 100))%Q)
    KernelFloat.samples.
Proof. repeat constructor; vm_compute; reflexivity. Qed.

Example score_all_low :
  (round2 (score_of_counts 3 0 0 3) == 6667 # 100)%Q.
Proof. vm_compute. reflexivity. Qed.

(** 8127/12000 in floating point: the ratio is 0.67725000000000001865...,
    its product with 100 is 67.72500000000000852... and the score is
    32.27499999999999147..., below the exact 32.275. *)
Example binary64_tie_steps :
  let ratio := Binary64.fdiv 8127 12000 in
  let product := Binary64.fmul ratio 100 in
  let score := Binary64.fsub 100 product in
  (ratio == 6100125695273337 # 9007199254740992)%Q
  /\ (product == 4765723199432295 # 70368744177664)%Q
  /\ (score == 2271151218334105 # 70368744177664)%Q
  /\ (score < 32275 # 1000)%Q
  /\ score_of_counts 4000 127 3873 0 = Qmax 0 score
  /\ (round2 score == 3227 # 100)%Q.
Proof. vm_compute. repeat split; reflexivity. Qed.

Example empty_text_unknown_type :
  let r := check_compliance "Lease" "" ∅ in
  map issue_type (issues r)
  = ["Missing ADGM Reference"; "Missing Title"; "Poor Structure"]
  /\ (compliance_score r == 3333 # 100)%Q
  /\ is_compliant r = false.
Proof. vm_compute. repeat split; reflexivity. Qed.

Example board_resolution_alone_ties :
  identify_process_type [ {[ "document_type" := "Board Resolution" ]} ]
  = Some "Company Incorporation".
Proof. reflexivity. Qed.

Example licensing_outweighs_resolution :
  identify_process_type
    [ {[ "document_type" := "Board Resolution" ]};
      {[ "document_type" := "Business Plan" ]} ]
  = Some "Business Licensing".
Proof. reflexivity. Qed.

Example sample_uploads_result :
  exists r,
    verify_checklist_run sample_extract sample_uploads
    = Some (r, ["/uploads/aoa.docx"; "/uploads/minutes.docx"])
    /\ process_type r = "Company Incorporation"
    /\ documents_uploaded r = 3
    /\ required_documents r = 7
    /\ missing_documents r
       = [ "Memorandum of Association"; "Shareholder Resolution";
           "Incorporation Application Form"; "UBO Declaration Form";
           "Register of Members and Directors" ]
    /\ (completeness_percentage r == 2857 # 100)%Q
    /\ is_complete r = false.
Proof. eexists. vm_compute. repeat split; reflexivity. Qed.

(** ** Process identification *)

Lemma dict_add_keys k n d : map fst (dict_add k n d) = map fst d.
Proof.
  induction d as [|[k' v] d IH]; simpl; [reflexivity|].
  destruct (String.eqb k' k); simpl; [reflexivity|]. now rewrite IH.
Qed.

Lemma bump_all_keys (d : list (string * nat)) :
  map fst (map (fun '(process, v) => (process, v + 1)) d) = map fst d.
Proof. induction d as [|[k v] d IH]; simpl; [reflexivity|]. now rewrite IH. Qed.

Lemma score_document_keys d doc_type :
  map fst (score_document d doc_type) = map fst d.
Proof.
  unfold score_document.
  repeat match goal with
         | |- context [if ?b then _ else _] => destruct b
         end;
    rewrite ?bump_all_keys, ?dict_add_keys; reflexivity.
Qed.

Lemma scoring_loop_keys types d :
  map fst (fold_left score_document types d) = map fst d.
Proof.
  revert d. induction types as [|t types IH]; intros d; simpl; [reflexivity|].
  now rewrite IH, score_document_keys.
Qed.

Lemma max_fold_in (d : list (string * nat)) best :
  In (fold_left (fun best kv' => if Nat.ltb (snd best) (snd kv') then kv'
                                 else best) d best) (best :: d).
Proof.
  revert best. induction d as [|kv d IH]; intros best; simpl; [now left|].
  destruct (IH (if Nat.ltb (snd best) (snd kv) then kv else best)) as [H|H].
  - destruct (Nat.ltb (snd best) (snd kv)); rewrite <- H; auto.
  - auto.
Qed.

Lemma max_key_in d :
  d <> [] -> exists k, max_key d = Some k /\ In k (map fst d).
Proof.
  destruct d as [|kv d]; [congruence|]. intros _.
  eexists; split; [reflexivity|].
  apply in_map, max_fold_in.
Qed.

Lemma identify_process_type_key uploaded_documents :
  exists p, identify_process_type uploaded_documents = Some p
            /\ In p catalog_keys.
Proof.
  unfold identify_process_type.
  set (types := map _ uploaded_documents).
  destruct (max_key_in (fold_left score_document types initial_scores))
    as (k & Hk & Hin).
  - intros E. apply (f_equal (map fst)) in E.
    rewrite scoring_loop_keys in E. discriminate E.
  - exists k. split; [exact Hk|]. now rewrite scoring_loop_keys in Hin.
Qed.

Lemma catalog_key_lookup p :
  In p catalog_keys -> is_Some (process_checklists !! p).
Proof.
  intros H. repeat (destruct H as [<-|H]; [vm_compute; eauto|]). destruct H.
Qed.

(** ** Matches of the catalog patterns are not empty *)

Lemma match_here_literal_first c p s : Re.match_here (Re.Lit c :: p) s <> Some 0.
Proof.
  simpl. destruct s as [|x s]; [discriminate|].
  destruct (Re.eq_ci c x); [|discriminate].
  now destruct (Re.match_here p s).
Qed.

Lemma catalog_patterns_start_with_literal :
  Forall (fun pattern =>
            match Re.compile pattern with
            | Re.Lit _ :: _ => True
            | _ => False
            end)
         (federal_court_patterns ++ adgm_jurisdiction_patterns
          ++ map fst ambiguous_patterns)%list.
Proof. repeat constructor. Qed.

(** ** Shape of the verifier's result *)

Lemma verify_with_nonempty extract fallback doc docs :
  exists p required_docs,
    In p catalog_keys
    /\ identify_process_type (doc :: docs) = Some p
    /\ process_checklists !! p = Some required_docs
    /\ verify_with extract fallback (doc :: docs)
       = let st := run_loop extract fallback required_docs
                            (mandatory_names required_docs) (doc :: docs) in
         Some (checklist_of p (doc :: docs) (mandatory_names required_docs)
                            (found_documents st),
               extracted_paths st).
Proof.
  destruct (identify_process_type_key (doc :: docs)) as (p & Hp & Hin).
  destruct (catalog_key_lookup p Hin) as [required_docs Hreq].
  exists p, required_docs. repeat split; try assumption.
  unfold verify_with. rewrite Hp. simpl. now rewrite Hreq.
Qed.

Lemma length_zero_nil {A} (l : list A) :
  Nat.eqb (List.length l) 0 = true <-> l = [].
Proof. destruct l; simpl; split; congruence. Qed.

(** ** The file name fallback *)

Lemma find_matching_sound uploaded_filename names name :
  _find_matching_document uploaded_filename names = Some name ->
  In name names
  /\ _normalize_filename uploaded_filename = _normalize_filename name.
Proof.
  induction names as [|n names IH]; simpl; [discriminate|].
  destruct (String.eqb _ _) eqn:E.
  - intros [= <-]. apply String.eqb_eq in E. auto.
  - intros H. destruct (IH H). auto.
Qed.

Lemma match_by_filename text filename required_doc :
  _normalize_filename filename
  = _normalize_filename (document_name required_doc) ->
  match_document_type text filename required_doc = true.
Proof.
  intros H. unfold match_document_type.
  destruct (keyword_in _ _); [reflexivity|].
  rewrite H, String.eqb_refl. reflexivity.
Qed.

Lemma find_matching_matches text filename required_docs :
  match _find_matching_document filename (mandatory_names required_docs) with
  | Some name =>
      exists required_doc,
        In required_doc required_docs
        /\ is_mandatory required_doc = true
        /\ document_name required_doc = name
        /\ match_document_type text filename required_doc = true
  | None => True
  end.
Proof.
  destruct (_find_matching_document _ _) as [name|] eqn:Hfind; [|exact I].
  apply find_matching_sound in Hfind as [Hin Hnorm].
  apply in_map_iff in Hin as (required_doc & <- & Hreq).
  apply List.filter_In in Hreq as [Hreq Hmand].
  exists required_doc. repeat split; try assumption.
  now apply match_by_filename.
Qed.

Lemma filename_fallback_noop text filename required_docs found :
  filename_fallback text filename required_docs
                    (mandatory_names required_docs) found = found.
Proof.
  unfold filename_fallback.
  destruct (existsb _ _) eqn:Hany; simpl; [reflexivity|].
  pose proof (find_matching_matches text filename required_docs) as Hfind.
  destruct (_find_matching_document _ _) as [name|]; [|reflexivity].
  exfalso. destruct Hfind as (required_doc & Hin & Hmand & _ & Hmatch).
  assert (existsb (match_document_type text filename)
                  (List.filter is_mandatory required_docs) = true) as Habs.
  { apply existsb_exists. exists required_doc.
    split; [|assumption]. apply List.filter_In. auto. }
  congruence.
Qed.

Lemma upload_step_no_fallback extract required_docs st doc :
  upload_step extract filename_fallback required_docs
              (mandatory_names required_docs) st doc
  = upload_step extract (fun _ _ _ _ found => found) required_docs
                (mandatory_names required_docs) st doc.
Proof.
  unfold upload_step.
  destruct (_ || _); [reflexivity|].
  now rewrite filename_fallback_noop.
Qed.

Lemma run_loop_no_fallback extract required_docs docs :
  run_loop extract filename_fallback required_docs
           (mandatory_names required_docs) docs
  = run_loop extract (fun _ _ _ _ found => found) required_docs
             (mandatory_names required_docs) docs.
Proof.
  unfold run_loop. generalize {| found_documents := ∅; extracted_paths := [] |}.
  induction docs as [|doc docs IH]; intros st; simpl; [reflexivity|].
  now rewrite upload_step_no_fallback, IH.
Qed.

(** ** Skipped descriptors *)

Lemma get_str_empty d k : String.eqb (get_str d k) "" = missing_or_empty d k.
Proof. unfold get_str, missing_or_empty. now destruct (d !! k). Qed.

Lemma upload_step_skipped extract fallback required_docs mandatory_docs st doc :
  skipped doc = true ->
  upload_step extract fallback required_docs mandatory_docs st doc = st.
Proof.
  intros H. unfold upload_step. rewrite !get_str_empty.
  unfold skipped in H. now rewrite H.
Qed.

Lemma upload_step_paths extract fallback required_docs mandatory_docs st doc :
  skipped doc = false ->
  extracted_paths
    (upload_step extract fallback required_docs mandatory_docs st doc)
  = (extracted_paths st ++ [get_str doc "file_path"])%list.
Proof.
  intros H. unfold upload_step. rewrite !get_str_empty.
  unfold skipped in H. now rewrite H.
Qed.

Lemma loop_ignores_skipped extract fallback required_docs mandatory_docs docs st :
  fold_left (upload_step extract fallback required_docs mandatory_docs) docs st
  = fold_left (upload_step extract fallback required_docs mandatory_docs)
              (usable docs) st.
Proof.
  revert st. induction docs as [|doc docs IH]; intros st; simpl; [reflexivity|].
  destruct (skipped doc) eqn:E; simpl.
  - now rewrite upload_step_skipped.
  - apply IH.
Qed.

Lemma loop_paths extract fallback required_docs mandatory_docs docs st :
  extracted_paths
    (fold_left (upload_step extract fallback required_docs mandatory_docs)
               docs st)
  = (extracted_paths st
     ++ map (fun d => get_str d "file_path") (usable docs))%list.
Proof.
  revert st. induction docs as [|doc docs IH]; intros st; simpl.
  - now rewrite app_nil_r.
  - destruct (skipped doc) eqn:E; simpl.
    + now rewrite upload_step_skipped.
    + rewrite IH, upload_step_paths by assumption.
      now rewrite <- app_assoc.
Qed.

(** ** Claims about the checklist verifier *)

(** C8: [identify_process_type] returns one of the four keys of the
    process checklist catalog, for every list of uploaded documents, so
    the lookup in [verify_checklist] succeeds and no result carries the
    process type "Unknown Process". *)
Theorem identify_process_type_in_catalog
    (extract : string -> option string)
    (uploaded_documents : list (gmap string string)) :
  (exists p, identify_process_type uploaded_documents = Some p
             /\ In p catalog_keys
             /\ is_Some (process_checklists !! p))
  /\ (exists r, verify_checklist extract uploaded_documents = Some r
                /\ process_type r <> "Unknown Process").
Proof.
  split.
  - destruct (identify_process_type_key uploaded_documents) as (p & Hp & Hin).
    exists p. auto using catalog_key_lookup.
  - destruct uploaded_documents as [|doc docs].
    + eexists. split; [reflexivity|]. discriminate.
    + destruct (verify_with_nonempty extract filename_fallback doc docs)
        as (p & required_docs & Hin & _ & _ & Hrun).
      unfold verify_checklist, verify_checklist_run. rewrite Hrun.
      eexists. split; [reflexivity|]. simpl.
      repeat (destruct Hin as [<-|Hin]; [discriminate|]). destruct Hin.
Qed.

(** C2 (as amended): [verify_checklist] always returns a result, and its
    [is_complete] field is true exactly when the input is non-empty and
    [missing_documents] is empty; on empty input [is_complete] is false
    although [missing_documents] is empty. *)
Theorem is_complete_iff_nonempty_and_none_missing
    (extract : string -> option string)
    (uploaded_documents : list (gmap string string)) :
  exists r, verify_checklist extract uploaded_documents = Some r
            /\ (is_complete r = true
                <-> uploaded_documents <> [] /\ missing_documents r = []).
Proof.
  destruct uploaded_documents as [|doc docs].
  - eexists. split; [reflexivity|]. simpl. split; [discriminate|].
    intros [H _]. now destruct H.
  - destruct (verify_with_nonempty extract filename_fallback doc docs)
      as (p & required_docs & _ & _ & _ & Hrun).
    unfold verify_checklist, verify_checklist_run. rewrite Hrun.
    eexists. split; [reflexivity|]. simpl.
    rewrite length_zero_nil. split; [intros H; split; [discriminate|exact H]|].
    now intros [_ H].
Qed.

(** C2, counterexample: on the empty input the result has an empty
    [missing_documents] and a false [is_complete]. *)
Lemma is_complete_iff_fails_on_empty_input :
  exists r, verify_checklist (fun _ => None) [] = Some r
            /\ ~ (is_complete r = true <-> missing_documents r = []).
Proof.
  eexists. split; [reflexivity|]. simpl. intros [_ H].
  specialize (H eq_refl). discriminate H.
Qed.

(** C9: a name returned by [_find_matching_document] belongs to a
    mandatory requirement that [match_document_type] accepts for the same
    file; hence the file name fallback block never changes the set of
    found documents, and [verify_checklist] returns the result of the
    variant without that block. *)
Theorem filename_fallback_is_dead
    (extract : string -> option string)
    (uploaded_documents : list (gmap string string)) :
  (forall text filename required_docs,
      match _find_matching_document filename
                                    (mandatory_names required_docs) with
      | Some name =>
          exists required_doc,
            In required_doc required_docs
            /\ is_mandatory required_doc = true
            /\ document_name required_doc = name
            /\ match_document_type text filename required_doc = true
      | None => True
      end)
  /\ (forall text filename required_docs found,
         filename_fallback text filename required_docs
                           (mandatory_names required_docs) found = found)
  /\ verify_checklist extract uploaded_documents
     = verify_checklist_no_fallback extract uploaded_documents.
Proof.
  split; [apply find_matching_matches|].
  split; [apply filename_fallback_noop|].
  unfold verify_checklist, verify_checklist_no_fallback, verify_checklist_run.
  destruct uploaded_documents as [|doc docs]; [reflexivity|].
  destruct (verify_with_nonempty extract filename_fallback doc docs)
    as (p & required_docs & _ & Hp & Hreq & Hrun).
  destruct (verify_with_nonempty extract (fun _ _ _ _ found => found) doc docs)
    as (p' & required_docs' & _ & Hp' & Hreq' & Hrun').
  rewrite Hrun, Hrun'.
  assert (p' = p) as -> by congruence.
  assert (required_docs' = required_docs) as -> by congruence.
  simpl. now rewrite run_loop_no_fallback.
Qed.

(** C10: every descriptor is counted in [documents_uploaded]; the paths
    handed to the document processor are exactly those of the descriptors
    that have a non-empty 'file_name' and a non-empty 'file_path'; and the
    loop ends in the state it reaches on the list with the other
    descriptors removed, whatever the required documents are. *)
Theorem skipped_descriptors_counted_not_matched
    (extract : string -> option string)
    (uploaded_documents : list (gmap string string)) :
  (exists r paths,
      verify_checklist_run extract uploaded_documents = Some (r, paths)
      /\ verify_checklist extract uploaded_documents = Some r
      /\ documents_uploaded r = List.length uploaded_documents
      /\ paths = map (fun d => get_str d "file_path")
                     (usable uploaded_documents))
  /\ (forall required_docs mandatory_docs,
         run_loop extract filename_fallback required_docs mandatory_docs
                  uploaded_documents
         = run_loop extract filename_fallback required_docs mandatory_docs
                    (usable uploaded_documents)).
Proof.
  split.
  - destruct uploaded_documents as [|doc docs].
    + do 2 eexists. repeat split.
    + destruct (verify_with_nonempty extract filename_fallback doc docs)
        as (p & required_docs & _ & _ & _ & Hrun).
      unfold verify_checklist, verify_checklist_run. rewrite Hrun.
      do 2 eexists. split; [reflexivity|]. split; [reflexivity|].
      split; [reflexivity|].
      unfold run_loop. now rewrite loop_paths.
  - intros required_docs mandatory_docs. apply loop_ignores_skipped.
Qed.

(** ** Substring tests *)

Lemma startswith_spec s p :
  PyStr.startswith s p = true <-> exists post, s = String.append p post.
Proof.
  revert s. induction p as [|b p IH]; intros s; simpl.
  - split; [intros _; now exists s|reflexivity].
  - destruct s as [|a s].
    + split; [discriminate|]. intros [post H]. discriminate H.
    + rewrite andb_true_iff, Ascii.eqb_eq, IH. split.
      * intros [-> [post ->]]. now exists post.
      * intros [post [= -> ->]]. split; [reflexivity|]. now exists post.
Qed.

Lemma py_in_spec needle hay :
  PyStr.py_in needle hay = true <-> substring_of needle hay.
Proof.
  unfold substring_of. induction hay as [|c hay IH]; simpl.
  - rewrite orb_false_r, startswith_spec. split.
    + intros [post H]. now exists EmptyString, post.
    + intros ([|? pre] & post & H); [now exists post|discriminate H].
  - rewrite orb_true_iff, IH, startswith_spec. split.
    + intros [[post H]|(pre & post & H)].
      * now exists EmptyString, post.
      * exists (String c pre), post. simpl. now rewrite H.
    + intros ([|c' pre] & post & H).
      * left. now exists post.
      * right. injection H as -> ->. now exists pre, post.
Qed.

Lemma keyword_in_spec keywords haystack :
  keyword_in keywords haystack = true
  <-> exists keyword, In keyword keywords
                      /\ substring_of (PyStr.lower keyword) haystack.
Proof.
  unfold keyword_in. rewrite existsb_exists.
  split; intros (k & Hin & H); exists k; (split; [exact Hin|]);
    now apply py_in_spec.
Qed.

(** C5: [match_document_type] is the disjunction, tried from left to
    right, of (1) a keyword occurring in the text, (2) equal normalised
    file name and document name, (3) a keyword occurring in the file
    name; keywords, text and file name are compared in lower case. *)
Theorem match_document_type_spec (text filename : string)
    (required_doc : DocumentRequirement) :
  match_document_type text filename required_doc
  = (keyword_in (content_keywords required_doc) (PyStr.lower text)
     || (String.eqb (_normalize_filename filename)
                    (_normalize_filename (document_name required_doc))
         || keyword_in (content_keywords required_doc) (PyStr.lower filename)))
  /\ (match_document_type text filename required_doc = true
      <-> (exists keyword,
              In keyword (content_keywords required_doc)
              /\ substring_of (PyStr.lower keyword) (PyStr.lower text))
          \/ _normalize_filename filename
             = _normalize_filename (document_name required_doc)
          \/ (exists keyword,
                 In keyword (content_keywords required_doc)
                 /\ substring_of (PyStr.lower keyword) (PyStr.lower filename))).
Proof.
  assert (match_document_type text filename required_doc
          = (keyword_in (content_keywords required_doc) (PyStr.lower text)
             || (String.eqb (_normalize_filename filename)
                    (_normalize_filename (document_name required_doc))
                 || keyword_in (content_keywords required_doc)
                               (PyStr.lower filename)))) as E.
  { unfold match_document_type.
    destruct (keyword_in _ (PyStr.lower text)); [reflexivity|].
    destruct (String.eqb _ _); [reflexivity|].
    now destruct (keyword_in _ _). }
  split; [exact E|].
  rewrite E, !orb_true_iff, !keyword_in_spec, String.eqb_eq. reflexivity.
Qed.

(** ** Rounding and the score *)

Section Score.

Import Binary64.

Local Open Scope Q_scope.


(** Rounding to an integer. *)

Lemma round_half_even_bounds x :
  (Qfloor x <= round_half_even x <= Qfloor x + 1)%Z.
Proof.
  unfold round_half_even.
  destruct (_ ?= _); [destruct (Z.even _)| |]; lia.
Qed.

Lemma round_half_even_mono x y :
  x <= y -> (round_half_even x <= round_half_even y)%Z.
Proof.
  intros Hxy.
  pose proof (Qfloor_resp_le x y Hxy) as Hf.
  pose proof (round_half_even_bounds x) as Bx.
  pose proof (round_half_even_bounds y) as By.
  destruct (Z.eq_dec (Qfloor x) (Qfloor y)) as [E|NE]; [|lia].
  clear Bx By Hf. unfold round_half_even. rewrite <- E.
  destruct (Qcompare_spec (x - inject_Z (Qfloor x)) (1 # 2)) as [Hx|Hx|Hx];
    destruct (Qcompare_spec (y - inject_Z (Qfloor x)) (1 # 2)) as [Hy|Hy|Hy];
    try (destruct (Z.even (Qfloor x))); try lia; exfalso; lra.
Qed.

Lemma round_half_even_Z z : round_half_even (inject_Z z) = z.
Proof.
  unfold round_half_even. rewrite Qfloor_Z.
  destruct (Qcompare_spec (inject_Z z - inject_Z z) (1 # 2)) as [H|H|H];
    [exfalso; lra|reflexivity|exfalso; lra].
Qed.

Lemma round_half_even_near x :
  x - (1 # 2) <= inject_Z (round_half_even x) <= x + (1 # 2).
Proof.
  pose proof (Qfloor_le x) as Hlo. pose proof (Qlt_floor x) as Hhi.
  rewrite inject_Z_plus in Hhi. change (inject_Z 1) with 1 in Hhi.
  unfold round_half_even.
  destruct (Qcompare_spec (x - inject_Z (Qfloor x)) (1 # 2)) as [H|H|H].
  - destruct (Z.even _); [|rewrite inject_Z_plus; change (inject_Z 1) with 1];
      lra.
  - lra.
  - rewrite inject_Z_plus. change (inject_Z 1) with 1. lra.
Qed.

(** Powers of two and quotients. *)

Lemma pow2_pos e : 0 < 2 ^ e.
Proof. apply Qpower_0_lt. reflexivity. Qed.

Lemma pow2_add a b : 2 ^ (a + b) == 2 ^ a * 2 ^ b.
Proof. apply Qpower_plus. discriminate. Qed.

Lemma pow2_le a b : (a <= b)%Z -> 2 ^ a <= 2 ^ b.
Proof. intros H. apply Qpower_le_compat_l; [exact H|discriminate]. Qed.

Lemma pow2_lt_inv a b : 2 ^ a < 2 ^ b -> (a < b)%Z.
Proof. intros H. apply (Qpower_lt_compat_l_inv 2); [exact H|reflexivity]. Qed.

Lemma pow2_Z n : (0 <= n)%Z -> inject_Z (2 ^ n) == 2 ^ n.
Proof. intros H. now rewrite Zpower_Qpower. Qed.

Lemma pow2_succ a : 2 ^ (a + 1) == 2 * 2 ^ a.
Proof. rewrite pow2_add. change (2 ^ 1) with 2. ring. Qed.

Lemma Qdiv_le_cross a b c d :
  0 < b -> 0 < d -> a * d <= c * b -> a / b <= c / d.
Proof.
  intros Hb Hd H. apply Qle_shift_div_r; [exact Hb|].
  unfold Qdiv. rewrite <- Qmult_assoc, (Qmult_comm (/ d)), Qmult_assoc.
  apply Qle_shift_div_l; assumption.
Qed.

Lemma Qdiv_lt_cross a b c d :
  0 < b -> 0 < d -> a * d < c * b -> a / b < c / d.
Proof.
  intros Hb Hd H. apply Qlt_shift_div_r; [exact Hb|].
  unfold Qdiv. rewrite <- Qmult_assoc, (Qmult_comm (/ d)), Qmult_assoc.
  apply Qlt_shift_div_l; assumption.
Qed.

(** [binade x] is the exponent of the power of two at or below [x]. *)

Lemma binade_spec x :
  0 < x -> 2 ^ binade x <= x /\ x < 2 ^ (binade x + 1).
Proof.
  destruct x as [n d]. intros Hpos.
  assert (0 < n)%Z as Hn by (unfold Qlt in Hpos; simpl in Hpos; lia).
  unfold binade. cbn [Qnum Qden].
  set (a := Z.log2 n). set (b := Z.log2 (Zpos d)). set (k := (a - b)%Z).
  destruct (Z.log2_spec n Hn) as [Ha1 Ha2]. fold a in Ha1, Ha2.
  destruct (Z.log2_spec (Zpos d) eq_refl) as [Hb1 Hb2]. fold b in Hb1, Hb2.
  pose proof (Z.log2_nonneg n) as Ha0. fold a in Ha0.
  pose proof (Z.log2_nonneg (Zpos d)) as Hb0. fold b in Hb0.
  rewrite Zle_Qle, pow2_Z in Ha1 by lia.
  rewrite Zlt_Qlt, pow2_Z in Ha2 by lia.
  rewrite Zle_Qle, pow2_Z in Hb1 by lia.
  rewrite Zlt_Qlt, pow2_Z in Hb2 by lia.
  unfold Z.succ in Ha2, Hb2. rewrite pow2_succ in Ha2, Hb2.
  pose proof (pow2_pos a) as HA. pose proof (pow2_pos b) as HB.
  set (A := 2 ^ a) in *. set (B := 2 ^ b) in *.
  set (N := inject_Z n) in *. set (D := inject_Z (Zpos d)) in *.
  assert (0 < N) as HN by lra. assert (0 < D) as HD by lra.
  assert (n # d == N / D) as Hx by apply Qmake_Qdiv.
  assert (2 ^ k == A / B) as Hk.
  { unfold k, A, B. apply Qpower_minus. discriminate. }
  assert (N / D < 2 ^ (k + 1)) as Hup.
  { rewrite pow2_succ, Hk.
    setoid_replace (2 * (A / B)) with ((2 * A) / B) using relation Qeq
      by (unfold Qdiv; ring).
    apply Qdiv_lt_cross; [exact HD|exact HB|]. nra. }
  assert (2 ^ (k - 1) <= N / D) as Hlo.
  { apply Qmult_le_l with (z := 2); [reflexivity|].
    rewrite <- pow2_succ. replace (k - 1 + 1)%Z with k by lia. rewrite Hk.
    setoid_replace (2 * (N / D)) with ((2 * N) / D) using relation Qeq
      by (unfold Qdiv; ring).
    apply Qdiv_le_cross; [exact HB|exact HD|]. nra. }
  set (P := (2 ^ Z.max 0 k)%Z). set (M := (2 ^ Z.max 0 (- k))%Z).
  assert (0 < inject_Z M) as HM.
  { unfold M. rewrite pow2_Z by lia. apply pow2_pos. }
  assert (2 ^ k == inject_Z P / inject_Z M) as Hk'.
  { unfold P, M. rewrite !pow2_Z by lia.
    rewrite <- Qpower_minus by discriminate. f_equiv. lia. }
  destruct (Z.leb_spec (Zpos d * P) (n * M)) as [Hc|Hc].
  - split; [|rewrite Hx; exact Hup].
    rewrite Hx, Hk'. apply Qdiv_le_cross; [exact HM|exact HD|].
    unfold N, D. rewrite <- !inject_Z_mult, <- Zle_Qle. lia.
  - split; [rewrite Hx; exact Hlo|].
    replace (k - 1 + 1)%Z with k by lia.
    rewrite Hx, Hk'. apply Qdiv_lt_cross; [exact HD|exact HM|].
    unfold N, D. rewrite <- !inject_Z_mult, <- Zlt_Qlt. lia.
Qed.

Lemma binade_mono x y : 0 < x -> x <= y -> (binade x <= binade y)%Z.
Proof.
  intros Hx Hxy.
  destruct (binade_spec x Hx) as [Hlo _].
  destruct (binade_spec y) as [_ Hhi]; [lra|].
  assert (2 ^ binade x < 2 ^ (binade y + 1)) as H by lra.
  apply pow2_lt_inv in H. lia.
Qed.

(** The significand [x / ulp x] has 53 bits; rounding keeps the binade,
    is monotone and moves [x] by at most [x * eps]. *)

Lemma ulp_pos x : 0 < ulp x.
Proof. apply pow2_pos. Qed.

Lemma ulp_binade x : inject_Z (2 ^ 52) * ulp x == 2 ^ binade x.
Proof.
  unfold ulp. rewrite pow2_Z by lia. rewrite <- pow2_add. f_equiv. lia.
Qed.

Lemma significand_range x :
  0 < x -> inject_Z (2 ^ 52) <= x / ulp x /\ x / ulp x < inject_Z (2 ^ 53).
Proof.
  intros Hx. destruct (binade_spec x Hx) as [Hlo Hhi].
  rewrite pow2_succ, <- ulp_binade in Hhi. rewrite <- ulp_binade in Hlo.
  pose proof (ulp_pos x) as Hu. split.
  - apply Qle_shift_div_l; assumption.
  - apply Qlt_shift_div_r; [assumption|].
    change (inject_Z (2 ^ 53)) with (2 * inject_Z (2 ^ 52)). lra.
Qed.

Lemma round_pos_range x :
  0 < x ->
  2 ^ binade x <= round_pos x /\ round_pos x <= 2 ^ (binade x + 1).
Proof.
  intros Hx. destruct (significand_range x Hx) as [Hlo Hhi].
  pose proof (ulp_pos x) as Hu. unfold round_pos.
  apply round_half_even_mono in Hlo. rewrite round_half_even_Z in Hlo.
  apply Qlt_le_weak, round_half_even_mono in Hhi.
  rewrite round_half_even_Z in Hhi.
  rewrite Zle_Qle in Hlo, Hhi.
  rewrite pow2_succ, <- ulp_binade.
  change (inject_Z (2 ^ 53)) with (2 * inject_Z (2 ^ 52)) in Hhi.
  set (r := inject_Z (round_half_even (x / ulp x))) in *.
  set (c := inject_Z (2 ^ 52)) in *. split; nra.
Qed.

Lemma round_pos_mono x y : 0 < x -> x <= y -> round_pos x <= round_pos y.
Proof.
  intros Hx Hxy. assert (0 < y) as Hy by lra.
  pose proof (binade_mono x y Hx Hxy) as Hb.
  destruct (Z.eq_dec (binade x) (binade y)) as [E|NE].
  - unfold round_pos, ulp. rewrite <- E. fold (ulp x).
    pose proof (ulp_pos x) as Hu.
    assert (x / ulp x <= y / ulp x) as H.
    { apply Qdiv_le_cross; try assumption. nra. }
    apply round_half_even_mono in H. rewrite Zle_Qle in H. nra.
  - destruct (round_pos_range x Hx) as [_ Hhi].
    destruct (round_pos_range y Hy) as [Hlo _].
    assert (2 ^ (binade x + 1) <= 2 ^ binade y) as H by (apply pow2_le; lia).
    lra.
Qed.

Lemma round_pos_error x :
  0 < x -> x - x * eps <= round_pos x /\ round_pos x <= x + x * eps.
Proof.
  intros Hx. destruct (binade_spec x Hx) as [Hlo _].
  rewrite <- ulp_binade in Hlo.
  pose proof (ulp_pos x) as Hu.
  pose proof (round_half_even_near (x / ulp x)) as Hnear.
  unfold round_pos.
  set (r := inject_Z (round_half_even (x / ulp x))) in *.
  assert (x / ulp x * ulp x == x) as Hm by (field; lra).
  set (m := x / ulp x) in *.
  change (inject_Z (2 ^ 52)) with (4503599627370496 # 1) in Hlo.
  unfold eps. change (1 # 2 ^ 53) with (1 # 9007199254740992).
  split; nra.
Qed.

(** Floats that are not negative. *)

Lemma fl_pos x : 0 < x -> fl x = round_pos x.
Proof.
  destruct x as [[|n|n] d]; intros H; try reflexivity;
    unfold Qlt in H; simpl in H; lia.
Qed.

Lemma fl_zero x : x == 0 -> fl x = 0.
Proof.
  destruct x as [[|n|n] d]; intros H; try reflexivity;
    unfold Qeq in H; simpl in H; lia.
Qed.

Lemma fl_nonneg x : 0 <= x -> 0 <= fl x.
Proof.
  intros H. destruct (Qlt_le_dec 0 x) as [Hx|Hx].
  - rewrite (fl_pos x Hx). destruct (round_pos_range x Hx) as [Hlo _].
    pose proof (pow2_pos (binade x)). lra.
  - rewrite fl_zero by lra. lra.
Qed.

Lemma fl_mono x y : 0 <= x -> x <= y -> fl x <= fl y.
Proof.
  intros Hx Hxy. destruct (Qlt_le_dec 0 x) as [Hpos|Hzero].
  - rewrite (fl_pos x Hpos), (fl_pos y) by lra. now apply round_pos_mono.
  - rewrite (fl_zero x) by lra. apply fl_nonneg. lra.
Qed.

Lemma fl_proper x y : 0 <= x -> x == y -> fl x == fl y.
Proof.
  intros Hx E. apply Qle_antisym; apply fl_mono; lra.
Qed.

Lemma fl_error x : 0 <= x -> x - x * eps <= fl x /\ fl x <= x + x * eps.
Proof.
  intros H. destruct (Qlt_le_dec 0 x) as [Hx|Hx].
  - rewrite (fl_pos x Hx). now apply round_pos_error.
  - rewrite fl_zero by lra. assert (x == 0) as -> by lra. unfold eps. lra.
Qed.

Lemma fl_small_integers :
  fl 0 == 0 /\ fl 1 == 1 /\ fl 33 == 33 /\ fl 67 == 67 /\ fl 80 == 80
  /\ fl 100 == 100.
Proof. repeat split; vm_compute; reflexivity. Qed.

(** The three float operations of the score, on a ratio between 0 and 1. *)

Lemma penalised_steps q :
  0 <= q -> q <= 1 ->
  0 <= fl q /\ fl q <= 1
  /\ 0 <= fmul (fl q) 100 /\ fmul (fl q) 100 <= 100.
Proof.
  intros H0 H1.
  destruct fl_small_integers as (F0 & F1 & _ & _ & _ & F100).
  assert (0 <= fl q) as Ha0 by now apply fl_nonneg.
  assert (fl q <= 1) as Ha1.
  { pose proof (fl_mono q 1 H0 H1). lra. }
  repeat split; try assumption; unfold fmul.
  - apply fl_nonneg. nra.
  - assert (fl (fl q * 100) <= fl 100) by (apply fl_mono; nra). lra.
Qed.

Lemma penalised_nonneg q : 0 <= penalised q.
Proof. apply Q.le_max_l. Qed.

Lemma penalised_antitone q q' :
  0 <= q -> q <= q' -> q' <= 1 -> penalised q' <= penalised q.
Proof.
  intros H0 Hqq H1.
  destruct (penalised_steps q) as (Ha0 & Ha1 & Hp0 & Hp1); [lra|lra|].
  destruct (penalised_steps q') as (Ha0' & Ha1' & Hp0' & Hp1'); [lra|lra|].
  assert (fl q <= fl q') as Ha by now apply fl_mono.
  assert (fmul (fl q) 100 <= fmul (fl q') 100) as Hp
    by (apply fl_mono; nra).
  apply Q.max_le_compat_l. apply fl_mono; lra.
Qed.

Lemma penalised_third_bound : penalised (1 # 3) <= 67.
Proof. vm_compute. discriminate. Qed.

Lemma penalised_le_100 q : 0 <= q -> q <= 1 -> penalised q <= 100.
Proof.
  intros H0 H1.
  destruct (penalised_steps q H0 H1) as (_ & _ & Hp0 & Hp1).
  destruct fl_small_integers as (_ & _ & _ & _ & _ & F100).
  apply Q.max_lub; [lra|].
  assert (fsub 100 (fmul (fl q) 100) <= fl 100) by (apply fl_mono; lra).
  lra.
Qed.

Lemma penalised_close q :
  0 <= q -> q <= 1 ->
  (100 - 100 * q) - (1 # 1000) <= penalised q
  /\ penalised q <= (100 - 100 * q) + (1 # 1000).
Proof.
  intros H0 H1.
  destruct (penalised_steps q H0 H1) as (Ha0 & Ha1 & Hp0 & Hp1).
  destruct (fl_error q H0) as [Ea1 Ea2].
  assert (0 <= fl q * 100) as HP0 by nra.
  destruct (fl_error (fl q * 100) HP0) as [Ep1 Ep2].
  fold (fmul (fl q) 100) in Ep1, Ep2.
  assert (0 <= 100 - fmul (fl q) 100) as HD0 by lra.
  destruct (fl_error _ HD0) as [Ed1 Ed2].
  fold (fsub 100 (fmul (fl q) 100)) in Ed1, Ed2.
  assert (0 <= fsub 100 (fmul (fl q) 100)) as Hv0 by now apply fl_nonneg.
  unfold penalised. rewrite Q.max_r by exact Hv0.
  unfold eps in *. change (1 # 2 ^ 53) with (1 # 9007199254740992) in *.
  set (a := fl q) in *. set (p := fmul a 100) in *.
  set (v := fsub 100 p) in *.
  split; nra.
Qed.

(** Rounding to two decimals. *)

Lemma round2_mono x y : x <= y -> round2 x <= round2 y.
Proof.
  intros H. unfold round2.
  assert (x * 100 <= y * 100) as H100 by lra.
  apply round_half_even_mono in H100. rewrite Zle_Qle in H100.
  apply Qle_shift_div_r; [reflexivity|].
  field_simplify. lra.
Qed.

Lemma round2_proper x y : x == y -> round2 x == round2 y.
Proof.
  intros H. apply Qle_antisym; apply round2_mono; rewrite H; apply Qle_refl.
Qed.

Lemma round2_integers : round2 0 == 0 /\ round2 67 == 67 /\ round2 100 == 100.
Proof. repeat split; reflexivity. Qed.

Lemma round2_close v x :
  x - (1 # 1000) <= v -> v <= x + (1 # 1000) ->
  round2 x - (1 # 100) <= round2 v /\ round2 v <= round2 x + (1 # 100).
Proof.
  intros Hlo Hhi. unfold round2.
  pose proof (round_half_even_near (v * 100)) as Hv.
  pose proof (round_half_even_near (x * 100)) as Hx.
  set (rv := round_half_even (v * 100)) in *.
  set (rx := round_half_even (x * 100)) in *.
  assert (rv <= rx + 1)%Z as H1.
  { assert (inject_Z rv < inject_Z (rx + 2)) as H
      by (rewrite inject_Z_plus; change (inject_Z 2) with 2; lra).
    rewrite <- Zlt_Qlt in H. lia. }
  assert (rx <= rv + 1)%Z as H2.
  { assert (inject_Z rx < inject_Z (rv + 2)) as H
      by (rewrite inject_Z_plus; change (inject_Z 2) with 2; lra).
    rewrite <- Zlt_Qlt in H. lia. }
  rewrite Zle_Qle, inject_Z_plus in H1, H2.
  change (inject_Z 1) with 1 in H1, H2.
  unfold Qdiv. change (/ 100) with (1 # 100). split; lra.
Qed.

(** The score from the counters. *)

Lemma Qnat_pos n : (0 < n)%nat -> 0 < Qnat n.
Proof.
  intros H. unfold Qnat. change 0 with (inject_Z 0). rewrite <- Zlt_Qlt. lia.
Qed.

Lemma Qnat_le_cross a b c d :
  (a * d <= c * b)%nat -> Qnat a * Qnat d <= Qnat c * Qnat b.
Proof.
  intros H. unfold Qnat. rewrite <- !inject_Z_mult, <- Zle_Qle. lia.
Qed.

Lemma Qnat_ratio_le a b c d :
  (0 < b)%nat -> (0 < d)%nat -> (a * d <= c * b)%nat ->
  Qnat a / Qnat b <= Qnat c / Qnat d.
Proof.
  intros Hb Hd H.
  apply Qdiv_le_cross; auto using Qnat_pos, Qnat_le_cross.
Qed.

(** The exact ratio of a document with issues lies between 1/3 and 1. *)
Lemma ratio_range t w :
  (0 < t)%nat -> (t <= w)%nat -> (w <= t * 3)%nat ->
  1 # 3 <= Qnat w / Qnat (t * 3) /\ Qnat w / Qnat (t * 3) <= 1.
Proof.
  intros Ht Hlo Hhi. split.
  - change (1 # 3) with (Qnat 1 / Qnat 3). apply Qnat_ratio_le; lia.
  - change 1 with (Qnat 1 / Qnat 1). apply Qnat_ratio_le; lia.
Qed.

Lemma score_of_counts_ratio t h m l :
  t <> 0%nat ->
  score_of_counts t h m l
  = penalised (Qnat (h * 3 + m * 2 + l * 1) / Qnat (t * 3)).
Proof.
  intros Ht. unfold score_of_counts.
  destruct (Nat.eqb_spec t 0); [contradiction|reflexivity].
Qed.

Lemma score_of_counts_nonneg t h m l : 0 <= score_of_counts t h m l.
Proof.
  unfold score_of_counts. destruct (Nat.eqb t 0); [lra|apply Q.le_max_l].
Qed.

Lemma score_of_counts_penalised t h m l :
  t <> 0%nat -> (t <= h * 3 + m * 2 + l * 1)%nat ->
  (h * 3 + m * 2 + l * 1 <= t * 3)%nat ->
  score_of_counts t h m l <= 67.
Proof.
  intros Ht Hlo Hhi. rewrite score_of_counts_ratio by exact Ht.
  destruct (ratio_range t (h * 3 + m * 2 + l * 1)%nat) as [Hq Hq1];
    [lia|lia|lia|].
  apply Qle_trans with (penalised (1 # 3)).
  - apply penalised_antitone; [lra|exact Hq|exact Hq1].
  - exact penalised_third_bound.
Qed.

Lemma score_of_counts_high_mono h m l :
  score_of_counts (S h + m + l) (S h) m l <= score_of_counts (h + m + l) h m l.
Proof.
  destruct (Nat.eq_dec (h + m + l)%nat 0%nat) as [E|NE].
  - rewrite E. change (score_of_counts 0 h m l) with 100.
    apply Qle_trans with 67; [apply score_of_counts_penalised; lia|lra].
  - rewrite !score_of_counts_ratio by lia.
    destruct (ratio_range (S h + m + l)%nat (S h * 3 + m * 2 + l * 1)%nat)
      as [_ Hq1]; [lia|lia|lia|].
    destruct (ratio_range (h + m + l)%nat (h * 3 + m * 2 + l * 1)%nat)
      as [Hq _]; [lia|lia|lia|].
    apply penalised_antitone; [lra| |exact Hq1].
    apply Qnat_ratio_le; lia.
Qed.

(** The computed score is within a thousandth of the exact formula. *)
Lemma score_of_counts_close h m l :
  (h + m + l <> 0)%nat ->
  let exact :=
    Qmax 0 (100 - 100 * Qnat (3 * h + 2 * m + 1 * l)
                  / Qnat (3 * (h + m + l))) in
  exact - (1 # 1000) <= score_of_counts (h + m + l) h m l
  /\ score_of_counts (h + m + l) h m l <= exact + (1 # 1000).
Proof.
  intros Ht exact. rewrite score_of_counts_ratio by exact Ht.
  destruct (ratio_range (h + m + l)%nat (h * 3 + m * 2 + l * 1)%nat)
    as [Hq Hq1]; [lia|lia|lia|].
  assert (exact == 100 - 100 * (Qnat (h * 3 + m * 2 + l * 1)
                                / Qnat ((h + m + l) * 3))) as ->.
  { unfold exact.
    replace (3 * h + 2 * m + 1 * l)%nat with (h * 3 + m * 2 + l * 1)%nat
      by lia.
    replace (3 * (h + m + l))%nat with ((h + m + l) * 3)%nat by lia.
    set (q := Qnat _ / Qnat _) in *.
    setoid_replace (100 * Qnat (h * 3 + m * 2 + l * 1)
                    / Qnat ((h + m + l) * 3)) with (100 * q)
      using relation Qeq by (unfold q, Qdiv; ring).
    apply Q.max_r. lra. }
  apply penalised_close; lra.
Qed.

End Score.

(** ** Severities of the emitted issues *)

Lemma count_severity_cons sev i l :
  count_severity sev (i :: l)
  = (if String.eqb (severity i) sev then 1 else 0) + count_severity sev l.
Proof.
  unfold count_severity. simpl. now destruct (String.eqb _ _).
Qed.

Lemma count_severity_partition l :
  (forall i, In i l -> known_severity i) ->
  List.length l
  = count_severity "High" l + count_severity "Medium" l
    + count_severity "Low" l.
Proof.
  induction l as [|i l IH]; intros H; [reflexivity|].
  rewrite !count_severity_cons. simpl List.length.
  rewrite IH by (intros j Hj; apply H; now right).
  destruct (H i (or_introl eq_refl)) as [E|[E|E]]; rewrite E; simpl; lia.
Qed.

Lemma check_jurisdiction_severity content i :
  In i (check_jurisdiction_compliance content) -> known_severity i.
Proof.
  unfold check_jurisdiction_compliance.
  assert (forall j,
             In j (flat_map (fun pattern =>
                               map jurisdiction_error
                                   (Re.finditer pattern content))
                            federal_court_patterns) ->
             known_severity j) as Hfed.
  { intros j Hj. apply List.in_flat_map in Hj as (pattern & _ & Hj).
    apply List.in_map_iff in Hj as (m & <- & _). now left. }
  destruct (Nat.eqb _ 0); [|apply Hfed].
  intros Hi. apply List.in_app_iff in Hi as [Hi|[<-|[]]]; [auto|now left].
Qed.

Lemma check_required_clauses_severity document_type content i :
  In i (check_required_clauses document_type content) -> known_severity i.
Proof.
  unfold check_required_clauses.
  destruct (required_clauses !! document_type) as [required|]; [|intros []].
  intros Hi. apply List.in_flat_map in Hi as (c & _ & Hi).
  destruct (PyStr.py_in _ _); [destruct Hi|].
  destruct Hi as [<-|[]]. now left.
Qed.

Lemma check_legal_language_severity content i :
  In i (check_legal_language content) -> known_severity i.
Proof.
  unfold check_legal_language.
  intros Hi. apply List.in_flat_map in Hi as ([pattern descr] & _ & Hi).
  apply List.in_map_iff in Hi as (m & <- & _). right. now left.
Qed.

Lemma check_formatting_severity structure i :
  In i (check_formatting_compliance structure) -> known_severity i.
Proof.
  unfold check_formatting_compliance.
  intros Hi. apply List.in_app_iff in Hi as [Hi|Hi].
  - destruct (negb _); [|destruct Hi]. destruct Hi as [<-|[]]. right. now left.
  - destruct (Nat.ltb _ _); [|destruct Hi]. destruct Hi as [<-|[]].
    right. now right.
Qed.

Lemma check_compliance_severity document_type content structure i :
  In i (issues (check_compliance document_type content structure)) ->
  known_severity i.
Proof.
  unfold check_compliance, report_of. simpl.
  rewrite !List.in_app_iff.
  intros [H|[H|[H|H]]];
    eauto using check_jurisdiction_severity, check_required_clauses_severity,
      check_legal_language_severity, check_formatting_severity.
Qed.

(** ** Claims about the compliance score *)

Lemma report_of_compliance document_type content structure :
  exists all_issues,
    check_compliance document_type content structure = report_of all_issues
    /\ (forall i, In i all_issues -> known_severity i).
Proof.
  eexists. split; [reflexivity|].
  apply (check_compliance_severity document_type content structure).
Qed.

(** The rounded score of a list of issues with known severities. *)
Lemma report_score all_issues :
  (forall i, In i all_issues -> known_severity i) ->
  let h := count_severity "High" all_issues in
  let m := count_severity "Medium" all_issues in
  let l := count_severity "Low" all_issues in
  let score := score_of_counts (List.length all_issues) h m l in
  List.length all_issues = h + m + l
  /\ (List.length all_issues = 0 -> score = 100%Q)
  /\ (List.length all_issues <> 0 -> (0 <= score)%Q /\ (score <= 67)%Q)
  /\ (contract_score h m l - (1 # 100) <= round2 score)%Q
  /\ (round2 score <= contract_score h m l + (1 # 100))%Q.
Proof.
  intros Hsev h m l score.
  pose proof (count_severity_partition all_issues Hsev) as Hlen.
  fold h m l in Hlen. split; [exact Hlen|].
  split; [intros E; unfold score; now rewrite E|].
  split.
  - intros NE. split; [apply score_of_counts_nonneg|].
    apply score_of_counts_penalised; [exact NE|lia|lia].
  - unfold score. rewrite Hlen. unfold contract_score.
    destruct (Nat.eqb_spec (h + m + l) 0) as [E|NE].
    + rewrite E. change (score_of_counts 0 h m l) with 100%Q.
      destruct round2_integers as (_ & _ & ->). split; lra.
    + cbv zeta. apply round2_close; now apply score_of_counts_close.
Qed.

(** C1 (as amended): the score returned by [check_compliance] is
    [max(0, 100 - (weighted / max_possible) * 100)] evaluated in floating
    point on the counts of emitted issues by severity (whose sum is the
    total), rounded to 2 decimals; it is within one hundredth of the
    contract formula evaluated exactly, lies between 0 and 100, and
    equals 100 exactly when there is no issue. *)
Theorem compliance_score_near_contract
    (document_type content : string) (structure : gmap string pyval) :
  let r := check_compliance document_type content structure in
  let high := count_severity "High" (issues r) in
  let medium := count_severity "Medium" (issues r) in
  let low := count_severity "Low" (issues r) in
  high_severity_issues r = high
  /\ medium_severity_issues r = medium
  /\ low_severity_issues r = low
  /\ total_issues r = List.length (issues r)
  /\ total_issues r = high + medium + low
  /\ compliance_score r
     = round2 (score_of_counts (total_issues r) high medium low)
  /\ (contract_score high medium low - (1 # 100) <= compliance_score r)%Q
  /\ (compliance_score r <= contract_score high medium low + (1 # 100))%Q
  /\ (0 <= compliance_score r)%Q
  /\ (compliance_score r <= 100)%Q
  /\ ((compliance_score r == 100)%Q <-> total_issues r = 0).
Proof.
  destruct (report_of_compliance document_type content structure)
    as (all_issues & -> & Hsev).
  destruct (report_score all_issues Hsev) as (Hlen & H100 & Hpen & Hlo & Hhi).
  cbn zeta in *. simpl issues. simpl total_issues. simpl compliance_score.
  simpl high_severity_issues. simpl medium_severity_issues.
  simpl low_severity_issues.
  set (h := count_severity "High" all_issues) in *.
  set (m := count_severity "Medium" all_issues) in *.
  set (l := count_severity "Low" all_issues) in *.
  set (score := score_of_counts (List.length all_issues) h m l) in *.
  destruct round2_integers as (R0 & R67 & R100).
  repeat (split; [reflexivity|]).
  split; [exact Hlen|]. split; [reflexivity|].
  split; [exact Hlo|]. split; [exact Hhi|].
  assert (0 <= round2 score)%Q as Hnonneg.
  { rewrite <- R0. apply round2_mono. unfold score.
    apply score_of_counts_nonneg. }
  destruct (Nat.eq_dec (List.length all_issues) 0) as [E|NE].
  - rewrite (H100 E). rewrite R100.
    split; [lra|]. split; [lra|]. split; [intros _; exact E|reflexivity].
  - destruct (Hpen NE) as [_ H67]. apply round2_mono in H67.
    rewrite R67 in H67.
    split; [exact Hnonneg|]. split; [lra|].
    split; [intros Hs; exfalso; lra|intros E; contradiction].
Qed.

(** C1, counterexample: for a document with 127 High and 3873 Medium
    issues the exact formula gives 32.275, which rounds to 32.28; in
    floating point the ratio 8127/12000 times 100 is a little above
    67.725, the difference a little below 32.275, and [check_compliance]
    returns 32.27. *)
Lemma compliance_score_off_contract_at_tie :
  let r := check_compliance "Lease" tie_text tie_structure in
  high_severity_issues r = 127
  /\ medium_severity_issues r = 3873
  /\ low_severity_issues r = 0
  /\ (compliance_score r == 3227 # 100)%Q
  /\ (contract_score 127 3873 0 == 3228 # 100)%Q
  /\ ~ (compliance_score r
        == contract_score (high_severity_issues r)
                          (medium_severity_issues r)
                          (low_severity_issues r))%Q.
Proof.
  vm_compute. repeat split; discriminate.
Qed.

(** C3: [is_compliant] is true exactly when the returned (rounded)
    [compliance_score] is at least 80. *)
Theorem is_compliant_iff_score_at_least_80
    (document_type content : string) (structure : gmap string pyval) :
  let r := check_compliance document_type content structure in
  is_compliant r = true <-> (80 <= compliance_score r)%Q.
Proof.
  destruct (report_of_compliance document_type content structure)
    as (all_issues & -> & Hsev).
  destruct (report_score all_issues Hsev) as (_ & H100 & Hpen & _ & _).
  cbn zeta in *. simpl is_compliant. simpl compliance_score.
  set (h := count_severity "High" all_issues) in *.
  set (m := count_severity "Medium" all_issues) in *.
  set (l := count_severity "Low" all_issues) in *.
  set (score := score_of_counts (List.length all_issues) h m l) in *.
  destruct round2_integers as (_ & R67 & R100).
  rewrite Qle_bool_iff.
  destruct (Nat.eq_dec (List.length all_issues) 0) as [E|NE].
  - rewrite (H100 E). rewrite R100. split; intros _; lra.
  - destruct (Hpen NE) as [_ H67].
    pose proof (round2_mono _ _ H67) as Hup. rewrite R67 in Hup.
    split; intros H; exfalso; lra.
Qed.

(** C4: with one more High-severity issue the score does not increase,
    before and after rounding, for all counts of issues. *)
Theorem score_monotone_in_high (h m l : nat) :
  (score_of_counts (S h + m + l) (S h) m l
   <= score_of_counts (h + m + l) h m l)%Q
  /\ (round2 (score_of_counts (S h + m + l) (S h) m l)
      <= round2 (score_of_counts (h + m + l) h m l))%Q.
Proof.
  pose proof (score_of_counts_high_mono h m l) as H.
  split; [exact H|now apply round2_mono].
Qed.

(** C7: an "Articles of Association" whose text is "UAE Federal Courts",
    with a title and at least two sections, gets nine issues, all of
    High severity: one jurisdiction error, one missing ADGM reference and
    seven missing required clauses; its score is 0 and it is not
    compliant. *)
Theorem uae_federal_courts_scenario (structure : gmap string pyval) :
  truthy (structure !! "title") = true ->
  2 <= len_or_empty (structure !! "sections") ->
  scenario_outcome
    (check_compliance "Articles of Association" "UAE Federal Courts" structure).
Proof.
  intros Htitle Hsections.
  assert (check_formatting_compliance structure = []) as Hfmt.
  { unfold check_formatting_compliance. rewrite Htitle.
    apply Nat.ltb_ge in Hsections. now rewrite Hsections. }
  unfold check_compliance. rewrite Hfmt.
  vm_compute. repeat split; reflexivity.
Qed.

(** The scenario on a structure with a title and two sections. *)
Lemma uae_federal_courts_scenario_witness :
  truthy (sample_structure !! "title") = true
  /\ 2 <= len_or_empty (sample_structure !! "sections")
  /\ scenario_outcome
       (check_compliance "Articles of Association" "UAE Federal Courts"
                         sample_structure).
Proof.
  split; [vm_compute; reflexivity|].
  split; [vm_compute; lia|].
  apply (uae_federal_courts_scenario sample_structure);
    [vm_compute; reflexivity|vm_compute; lia].
Defined.

(** ** File name normalisation is idempotent *)

Section Normalisation.

Import PyStr NormalForm.

Lemma append_cons c s t :
  String.append (String c s) t = String c (String.append s t).
Proof. reflexivity. Qed.

Lemma append_empty_r s : String.append s EmptyString = s.
Proof.
  induction s as [|c s IH]; [reflexivity|]. now rewrite append_cons, IH.
Qed.

Lemma ascii_forall (P : ascii -> bool) :
  (forall b0 b1 b2 b3 b4 b5 b6 b7, P (Ascii b0 b1 b2 b3 b4 b5 b6 b7) = true) ->
  forall c, P c = true.
Proof. intros H [b0 b1 b2 b3 b4 b5 b6 b7]. apply H. Qed.

Lemma lowered_char_clean c :
  is_space (lower_char (replace_seps c))
  || clean (lower_char (replace_seps c)) = true.
Proof.
  revert c. apply ascii_forall.
  intros [] [] [] [] [] [] [] []; vm_compute; reflexivity.
Qed.

Lemma space_is_plain : plain " " = true /\ is_space " " = true.
Proof. split; reflexivity. Qed.

Lemma lowered_string_clean s :
  string_forall (fun c => is_space c || clean c)
    (lower (replace "." " " (replace "-" " " (replace "_" " " s)))) = true.
Proof.
  induction s as [|c s IH]; [reflexivity|].
  simpl. rewrite IH, andb_true_r. apply lowered_char_clean.
Qed.

Lemma cons_word_clean w ws :
  string_forall clean w = true -> Forall clean_word ws ->
  Forall clean_word (cons_word w ws).
Proof.
  intros Hw Hws. destruct w; simpl; [exact Hws|].
  constructor; [|exact Hws]. split; [discriminate|exact Hw].
Qed.

Lemma split_from_clean s :
  string_forall (fun c => is_space c || clean c) s = true ->
  string_forall clean (fst (split_from s)) = true
  /\ Forall clean_word (snd (split_from s)).
Proof.
  induction s as [|c s IH]; simpl; [auto|].
  intros H. apply andb_true_iff in H as [Hc Hs].
  destruct (IH Hs) as [Hw Hws]. destruct (split_from s) as [w ws].
  simpl in *. destruct (is_space c) eqn:E; simpl in *.
  - split; [reflexivity|]. now apply cons_word_clean.
  - rewrite Hc. auto.
Qed.

Lemma split_clean s :
  string_forall (fun c => is_space c || clean c) s = true ->
  Forall clean_word (split s).
Proof.
  intros H. apply split_from_clean in H as [Hw Hws].
  unfold split. destruct (split_from s) as [w ws].
  now apply cons_word_clean.
Qed.

Lemma nf_word prev w rest :
  clean_word w -> nf prev (String.append w rest) = nf true rest.
Proof.
  intros [Hne Hw]. revert prev.
  induction w as [|c w IH]; intros prev; [congruence|].
  rewrite append_cons. simpl in *. apply andb_true_iff in Hw as [-> Hw].
  destruct w as [|c' w']; [reflexivity|]. apply IH; [discriminate|exact Hw].
Qed.

Lemma nf_join w ws :
  Forall clean_word (w :: ws) -> nf false (join " " (w :: ws)) = true.
Proof.
  revert w. induction ws as [|w' ws IH]; intros w H.
  - inversion H; subst. simpl join.
    rewrite <- (append_empty_r w). now rewrite nf_word.
  - inversion H; subst. change (join " " (w :: w' :: ws))
      with (String.append w (String " " (join " " (w' :: ws)))).
    rewrite nf_word by assumption.
    change (nf true (String " " (join " " (w' :: ws))))
      with (nf false (join " " (w' :: ws))).
    now apply IH.
Qed.

Lemma normal_join ws : Forall clean_word ws -> normal (join " " ws) = true.
Proof.
  intros H. destruct ws as [|w ws]; [reflexivity|].
  pose proof (nf_join w ws H) as Hnf.
  unfold normal. destruct (join " " (w :: ws)); [reflexivity|exact Hnf].
Qed.

Lemma normalize_normal filename : normal (_normalize_filename filename) = true.
Proof.
  unfold _normalize_filename. apply normal_join, split_clean.
  apply lowered_string_clean.
Qed.

Lemma clean_plain c : clean c = true -> plain c = true /\ is_space c = false.
Proof.
  unfold clean. intros H. apply andb_true_iff in H as [Hp Hs].
  split; [exact Hp|]. now apply negb_true_iff.
Qed.

Lemma nf_plain prev s : nf prev s = true -> string_forall plain s = true.
Proof.
  revert prev. induction s as [|c s IH]; intros prev; simpl; [reflexivity|].
  destruct (clean c) eqn:E.
  - intros H. apply clean_plain in E as [-> _]. exact (IH _ H).
  - intros H. apply andb_true_iff in H as [H Hs].
    apply andb_true_iff in H as [Hc _]. apply Ascii.eqb_eq in Hc as ->.
    exact (IH _ Hs).
Qed.

Lemma plain_lower s : string_forall plain s = true -> lower s = s.
Proof.
  induction s as [|c s IH]; simpl; [reflexivity|].
  intros H. apply andb_true_iff in H as [Hc Hs]. rewrite (IH Hs).
  unfold plain in Hc. rewrite !andb_true_iff in Hc.
  destruct Hc as [[[Hc _] _] _]. apply Ascii.eqb_eq in Hc. now rewrite Hc.
Qed.

Lemma plain_replace s :
  string_forall plain s = true ->
  replace "_" " " s = s /\ replace "-" " " s = s /\ replace "." " " s = s.
Proof.
  induction s as [|c s IH]; simpl; [auto|].
  intros H. apply andb_true_iff in H as [Hc Hs].
  destruct (IH Hs) as (-> & -> & ->).
  unfold plain in Hc. rewrite !andb_true_iff, !negb_true_iff in Hc.
  destruct Hc as [[[_ ->] ->] ->]. auto.
Qed.

Lemma plain_endswith s ext :
  string_forall plain s = true -> endswith s (String "." ext) = false.
Proof.
  induction s as [|c s IH]; simpl; [reflexivity|].
  intros H. apply andb_true_iff in H as [Hc Hs]. rewrite (IH Hs), orb_false_r.
  unfold plain in Hc. rewrite !andb_true_iff, !negb_true_iff in Hc.
  destruct Hc as [_ Hdot]. now rewrite Hdot.
Qed.

Lemma plain_strip_extension s :
  string_forall plain s = true ->
  strip_extension common_extensions s s = s.
Proof.
  intros H. unfold common_extensions, strip_extension.
  now rewrite !plain_endswith.
Qed.

Lemma nf_rstrip prev s : nf prev s = true -> rstrip s = s.
Proof.
  revert prev. induction s as [|c s IH]; intros prev; simpl; [reflexivity|].
  destruct (clean c) eqn:E.
  - intros H. rewrite (IH _ H). apply clean_plain in E as [_ ->].
    now destruct s.
  - intros H. apply andb_true_iff in H as [_ Hs]. rewrite (IH _ Hs).
    destruct s; [discriminate Hs|reflexivity].
Qed.

Lemma normal_strip s : normal s = true -> strip s = s.
Proof.
  destruct s as [|c s]; [reflexivity|]. intros H. unfold strip.
  assert (lstrip (String c s) = String c s) as ->.
  { simpl in *. destruct (clean c) eqn:E.
    - apply clean_plain in E as [_ ->]. reflexivity.
    - rewrite andb_false_r in H. discriminate H. }
  exact (nf_rstrip _ _ H).
Qed.

Lemma join_spaced w ws : join " " (w :: ws) = String.append w (spaced ws).
Proof.
  revert w. induction ws as [|w' ws IH]; intros w.
  - simpl. now rewrite append_empty_r.
  - change (join " " (w :: w' :: ws))
      with (String.append w (String " " (join " " (w' :: ws)))).
    now rewrite IH.
Qed.

Lemma nf_split_from prev s :
  nf prev s = true ->
  s = String.append (fst (split_from s)) (spaced (snd (split_from s)))
  /\ (prev = false -> fst (split_from s) <> EmptyString).
Proof.
  revert prev. induction s as [|c s IH]; intros prev; simpl.
  - intros ->. split; [reflexivity|discriminate].
  - destruct (clean c) eqn:E.
    + intros H. destruct (IH _ H) as [Hs _].
      apply clean_plain in E as [_ Hsp].
      destruct (split_from s) as [w ws]. rewrite Hsp. simpl in *.
      split; [|discriminate]. rewrite append_cons. now rewrite <- Hs.
    + intros H. apply andb_true_iff in H as [H Hs].
      apply andb_true_iff in H as [Hc Hprev]. apply Ascii.eqb_eq in Hc as ->.
      destruct (IH _ Hs) as [Heq Hne]. specialize (Hne eq_refl).
      destruct (split_from s) as [w ws]. simpl in *.
      split; [|congruence].
      destruct w as [|c' w']; [congruence|]. simpl. now rewrite <- Heq.
Qed.

Lemma normal_join_split s : normal s = true -> join " " (split s) = s.
Proof.
  destruct s as [|c s]; [reflexivity|]. intros H.
  destruct (nf_split_from _ _ H) as [Heq Hne]. specialize (Hne eq_refl).
  unfold split. destruct (split_from (String c s)) as [w ws]. simpl in *.
  destruct w as [|c' w']; [congruence|]. simpl cons_word.
  now rewrite join_spaced.
Qed.

Lemma normalize_fixed s : normal s = true -> _normalize_filename s = s.
Proof.
  intros H. unfold _normalize_filename.
  rewrite (normal_strip s H).
  assert (string_forall plain s = true) as Hplain.
  { destruct s; [reflexivity|]. exact (nf_plain _ _ H). }
  rewrite (plain_lower s Hplain), (plain_strip_extension s Hplain).
  destruct (plain_replace s Hplain) as (-> & -> & ->).
  rewrite (plain_lower s Hplain). now apply normal_join_split.
Qed.

End Normalisation.

(** C6: normalising a normalised file name changes nothing, and the two
    spellings of the board resolution file name both normalise to
    "board resolution". *)
Theorem normalize_filename_idempotent :
  (forall x : string,
      _normalize_filename (_normalize_filename x) = _normalize_filename x)
  /\ _normalize_filename "Board_Resolution.DOCX" = "board resolution"
  /\ _normalize_filename "board-resolution.docx" = "board resolution".
Proof.
  split; [|split; reflexivity].
  intros x. apply normalize_fixed, normalize_normal.
Qed.

(** * Properties of the rest of the code *)

(** ** Lower case and white space *)




Lemma lower_append a b :
  PyStr.lower (String.append a b)
  = String.append (PyStr.lower a) (PyStr.lower b).
Proof.
  induction a as [|c a IH]; [reflexivity|].
  rewrite !append_cons. simpl. now rewrite append_cons, IH.
Qed.


Lemma append_assoc a b c :
  String.append (String.append a b) c = String.append a (String.append b c).
Proof.
  induction a as [|x a IH]; [reflexivity|]. now rewrite !append_cons, IH.
Qed.

Lemma substring_of_append_l needle a b :
  substring_of needle a -> substring_of needle (String.append a b).
Proof.
  intros (pre & post & ->). exists pre, (String.append post b).
  now rewrite !append_assoc.
Qed.

Lemma substring_of_append_r needle a b :
  substring_of needle b -> substring_of needle (String.append a b).
Proof.
  intros (pre & post & ->). exists (String.append a pre), post.
  now rewrite !append_assoc.
Qed.

(** ** Matches are parts of the text *)

Lemma take_prefix n s : exists post, s = String.append (PyStr.take n s) post.
Proof.
  revert s. induction n as [|n IH]; intros s.
  - exists s. now destruct s.
  - destruct s as [|c s]; [now exists EmptyString|].
    destruct (IH s) as [post H]. exists post. simpl PyStr.take.
    rewrite append_cons. now rewrite <- H.
Qed.

Lemma scan_sound p s skip m :
  In m (Re.scan p s skip) -> m <> EmptyString /\ substring_of m s.
Proof.
  revert skip. induction s as [|c s IH]; intros skip; simpl; [intros []|].
  assert (forall k, In m (Re.scan p s k) ->
                    m <> EmptyString /\ substring_of m (String c s)) as Hrest.
  { intros k Hin. destruct (IH k Hin) as [Hne (pre & post & ->)].
    split; [exact Hne|]. exists (String c pre), post. now rewrite append_cons. }
  destruct skip as [|k]; [|apply Hrest].
  destruct (Re.match_here p (String c s)) as [[|n]|]; try apply Hrest.
  intros [<-|Hin]; [|exact (Hrest _ Hin)].
  split; [discriminate|].
  destruct (take_prefix (S n) (String c s)) as [post Hpost].
  exists EmptyString, post. exact Hpost.
Qed.

Lemma finditer_sound pattern content m :
  In m (Re.finditer pattern content) ->
  m <> EmptyString /\ substring_of m content.
Proof. apply scan_sound. Qed.

(** ** Matching does not look at the case of the text *)






(** ** The issues of each check *)

Lemma flat_map_map {A B C} (f : B -> C) (g : A -> list B) (l : list A) :
  flat_map (fun x => map f (g x)) l = map f (flat_map g l).
Proof.
  induction l as [|x l IH]; simpl; [reflexivity|].
  now rewrite IH, map_app.
Qed.

Lemma count_matches {A} (f : A -> list string) (l : list A) (k : nat) :
  fold_left (fun n x => n + List.length (f x)) l k
  = k + List.length (flat_map f l).
Proof.
  revert k. induction l as [|x l IH]; intros k; simpl; [lia|].
  rewrite IH, length_app. lia.
Qed.

Lemma check_jurisdiction_shape content :
  check_jurisdiction_compliance content
  = (map jurisdiction_error (forbidden_matches content)
     ++ match adgm_matches content with
        | [] => [missing_adgm_reference]
        | _ => []
        end)%list.
Proof.
  unfold check_jurisdiction_compliance.
  rewrite flat_map_map, count_matches.
  fold (forbidden_matches content). fold (adgm_matches content).
  destruct (adgm_matches content); simpl;
    [reflexivity|now rewrite app_nil_r].
Qed.

Lemma check_legal_language_shape content :
  exists descriptions,
    List.length descriptions = List.length (ambiguous_matches content)
    /\ check_legal_language content
       = map (fun '(descr, m) => ambiguous_language descr m)
             (combine descriptions (ambiguous_matches content)).
Proof.
  unfold check_legal_language, ambiguous_matches.
  induction ambiguous_patterns as [|[pattern descr] l (ds & Hlen & IH)].
  - exists []. split; reflexivity.
  - exists (repeat descr (List.length (Re.finditer pattern content))
            ++ ds)%list.
    simpl. rewrite !length_app, repeat_length, Hlen. split; [reflexivity|].
    rewrite IH. clear.
    induction (Re.finditer pattern content) as [|m ms IHm]; simpl;
      [reflexivity|]. now rewrite IHm.
Qed.

Lemma count_severity_app sev l l' :
  count_severity sev (l ++ l')
  = count_severity sev l + count_severity sev l'.
Proof.
  unfold count_severity. now rewrite List.filter_app, length_app.
Qed.

Lemma count_severity_all sev s l :
  (forall i, In i l -> severity i = s) ->
  count_severity sev l = if String.eqb s sev then List.length l else 0.
Proof.
  intros H. induction l as [|i l IH]; [now destruct (String.eqb s sev)|].
  rewrite count_severity_cons, IH by (intros j Hj; apply H; now right).
  rewrite (H i (or_introl eq_refl)).
  destruct (String.eqb s sev); reflexivity.
Qed.

Lemma check_jurisdiction_high content i :
  In i (check_jurisdiction_compliance content) -> severity i = "High".
Proof.
  rewrite check_jurisdiction_shape, List.in_app_iff, List.in_map_iff.
  intros [(m & <- & _)|H]; [reflexivity|].
  destruct (adgm_matches content); [|destruct H].
  destruct H as [<-|[]]. reflexivity.
Qed.

Lemma check_required_clauses_high document_type content i :
  In i (check_required_clauses document_type content) ->
  severity i = "High" /\ issue_type i = "Missing Required Clause".
Proof.
  unfold check_required_clauses.
  destruct (required_clauses !! document_type) as [required|]; [|intros []].
  intros Hi. apply List.in_flat_map in Hi as (c & _ & Hi).
  destruct (PyStr.py_in _ _); [destruct Hi|].
  destruct Hi as [<-|[]]. split; reflexivity.
Qed.

Lemma check_legal_language_medium content i :
  In i (check_legal_language content) ->
  severity i = "Medium" /\ issue_type i = "Ambiguous Language".
Proof.
  unfold check_legal_language.
  intros Hi. apply List.in_flat_map in Hi as ([pattern descr] & _ & Hi).
  apply List.in_map_iff in Hi as (m & <- & _). split; reflexivity.
Qed.

Lemma check_legal_language_length content :
  List.length (check_legal_language content)
  = List.length (ambiguous_matches content).
Proof.
  destruct (check_legal_language_shape content) as (ds & Hlen & ->).
  rewrite length_map, length_combine. lia.
Qed.

(** ** More on the compliance report *)

Lemma compliant_without_issue
    (document_type content : string) (structure : gmap string pyval) :
  let r := check_compliance document_type content structure in
  is_compliant r = true <-> total_issues r = 0.
Proof.
  destruct (report_of_compliance document_type content structure)
    as (all_issues & -> & Hsev).
  destruct (report_score all_issues Hsev) as (_ & H100 & Hpen & _ & _).
  cbn zeta in *. simpl is_compliant. simpl total_issues.
  rewrite Qle_bool_iff.
  destruct (Nat.eq_dec (List.length all_issues) 0) as [E|NE].
  - rewrite (H100 E). split; [intros _; exact E|intros _; lra].
  - destruct (Hpen NE) as [_ H67]. split; [intros H; exfalso; lra|].
    intros E. contradiction.
Qed.

(** X1: a document is compliant exactly when the checks find no issue. *)
Theorem is_compliant_iff_no_issue
    (document_type content : string) (structure : gmap string pyval) :
  let r := check_compliance document_type content structure in
  (is_compliant r = true <-> total_issues r = 0)
  /\ (is_compliant r = true <-> issues r = []).
Proof.
  pose proof (compliant_without_issue document_type content structure) as H.
  cbn zeta in *. split; [exact H|]. rewrite H.
  unfold check_compliance, report_of. simpl total_issues. simpl issues.
  apply length_zero_iff_nil.
Qed.

(** X2: the three counters of the report, from the matches and the
    structure: forbidden court references, a missing ADGM reference
    and missing clauses are High, ambiguous phrases and a missing
    title are Medium, and the only Low issue is the one for fewer than
    two sections. *)
Theorem severity_counts
    (document_type content : string) (structure : gmap string pyval) :
  let r := check_compliance document_type content structure in
  high_severity_issues r
  = List.length (forbidden_matches content)
    + (match adgm_matches content with [] => 1 | _ => 0 end)
    + List.length (check_required_clauses document_type content)
  /\ medium_severity_issues r
     = List.length (ambiguous_matches content)
       + (if truthy (structure !! "title") then 0 else 1)
  /\ low_severity_issues r
     = (if Nat.ltb (len_or_empty (structure !! "sections")) 2 then 1 else 0)
  /\ low_severity_issues r <= 1.
Proof.
  cbn zeta. unfold check_compliance, report_of.
  simpl high_severity_issues. simpl medium_severity_issues.
  simpl low_severity_issues.
  rewrite !count_severity_app.
  rewrite !(count_severity_all _ "High" (check_jurisdiction_compliance content))
    by apply check_jurisdiction_high.
  rewrite !(count_severity_all _ "High"
              (check_required_clauses document_type content))
    by (intros i Hi; now apply check_required_clauses_high in Hi).
  rewrite !(count_severity_all _ "Medium" (check_legal_language content))
    by (intros i Hi; now apply check_legal_language_medium in Hi).
  rewrite check_legal_language_length.
  rewrite check_jurisdiction_shape, length_app, length_map.
  unfold check_formatting_compliance.
  destruct (truthy (structure !! "title"));
    destruct (Nat.ltb (len_or_empty (structure !! "sections")) 2);
    destruct (adgm_matches content); simpl;
    repeat match goal with
           | |- context [count_severity ?s (?i :: ?l)] =>
               let v := eval vm_compute in (count_severity s (i :: l)) in
               change (count_severity s (i :: l)) with v
           | |- context [count_severity ?s []] =>
               change (count_severity s []) with 0
           end;
    repeat split; lia.
Qed.

(** X3: the report holds a "Missing ADGM Reference" issue exactly when no
    ADGM pattern matches the text, whatever else the text refers to, and
    such a report is never compliant. *)
Theorem missing_adgm_reference_iff_no_match
    (document_type content : string) (structure : gmap string pyval) :
  let r := check_compliance document_type content structure in
  (In "Missing ADGM Reference" (map issue_type (issues r))
   <-> adgm_matches content = [])
  /\ (is_compliant r = true -> adgm_matches content <> []).
Proof.
  cbn zeta.
  assert (In "Missing ADGM Reference"
             (map issue_type
                  (issues (check_compliance document_type content structure)))
          <-> adgm_matches content = []) as H.
  { unfold check_compliance, report_of. simpl issues.
    rewrite check_jurisdiction_shape, !map_app, !List.in_app_iff, map_map.
    split.
    - intros [[H|H]|[H|[H|H]]].
      + apply List.in_map_iff in H as (m & H & _). discriminate H.
      + now destruct (adgm_matches content).
      + apply List.in_map_iff in H as (i & Hi & Hin).
        apply check_required_clauses_high in Hin as [_ E]. congruence.
      + apply List.in_map_iff in H as (i & Hi & Hin).
        apply check_legal_language_medium in Hin as [_ E]. congruence.
      + unfold check_formatting_compliance in H.
        destruct (negb _), (Nat.ltb _ _); simpl in H;
          intuition discriminate.
    - intros ->. left. right. now left. }
  split; [exact H|].
  intros Hc Hnone. apply H in Hnone.
  apply compliant_without_issue in Hc.
  unfold check_compliance, report_of in Hc, Hnone.
  simpl total_issues in Hc. simpl issues in Hnone.
  apply length_zero_iff_nil in Hc. rewrite Hc in Hnone. destruct Hnone.
Qed.

(** X4: the clause of a "Jurisdiction Error" or "Ambiguous Language"
    issue is quoted from the text: it is not empty and occurs in the text
    as it stands there. *)
Theorem matched_clause_quotes_the_text
    (document_type content : string) (structure : gmap string pyval)
    (i : ComplianceIssue) :
  In i (issues (check_compliance document_type content structure)) ->
  issue_type i = "Jurisdiction Error" \/ issue_type i = "Ambiguous Language" ->
  clause i <> "" /\ substring_of (clause i) content.
Proof.
  unfold check_compliance, report_of. simpl issues.
  rewrite check_jurisdiction_shape, !List.in_app_iff.
  intros [[H|H]|[H|[H|H]]] Ht.
  - apply List.in_map_iff in H as (m & <- & Hm).
    apply List.in_flat_map in Hm as (pattern & _ & Hm).
    exact (finditer_sound _ _ _ Hm).
  - exfalso. destruct (adgm_matches content); [|destruct H].
    destruct H as [<-|[]]. destruct Ht; discriminate.
  - exfalso. apply check_required_clauses_high in H as [_ E].
    rewrite E in Ht. destruct Ht; discriminate.
  - unfold check_legal_language in H.
    apply List.in_flat_map in H as ([pattern descr] & _ & H).
    apply List.in_map_iff in H as (m & <- & Hm).
    exact (finditer_sound _ _ _ Hm).
  - exfalso. unfold check_formatting_compliance in H.
    destruct (negb _), (Nat.ltb _ _); simpl in H;
      repeat (destruct H as [<-|H]; [destruct Ht; discriminate|]);
      destruct H.
Qed.

(** A forbidden court in a short text. *)
Lemma matched_clause_quotes_the_text_witness :
  let r := check_compliance "Board Resolution" "the Dubai Court" ∅ in
  let i := jurisdiction_error "Dubai Court" in
  In i (issues r)
  /\ (issue_type i = "Jurisdiction Error"
      \/ issue_type i = "Ambiguous Language")
  /\ clause i <> "" /\ substring_of (clause i) "the Dubai Court".
Proof.
  cbn zeta.
  assert (In (jurisdiction_error "Dubai Court")
             (issues (check_compliance "Board Resolution" "the Dubai Court"
                                       ∅))) as Hin
      by (vm_compute; left; reflexivity).
  split; [exact Hin|]. split; [left; reflexivity|].
  apply (matched_clause_quotes_the_text
           "Board Resolution" "the Dubai Court" ∅
           (jurisdiction_error "Dubai Court") Hin).
  left. reflexivity.
Defined.





Lemma required_clauses_length document_type required :
  required_clauses !! document_type = Some required ->
  List.length required <= 7.
Proof.
  intros H. apply elem_of_list_to_map_2 in H.
  repeat (apply elem_of_cons in H as [H|H];
          [injection H as _ ->; simpl; lia|]).
  now apply elem_of_nil in H.
Qed.

Lemma flat_map_length_le {A B} (f : A -> list B) (l : list A) :
  (forall x, List.length (f x) <= 1) ->
  List.length (flat_map f l) <= List.length l.
Proof.
  intros H. induction l as [|x l IH]; simpl; [lia|].
  rewrite length_app. specialize (H x). lia.
Qed.

(** X6: text added before or after the content never adds a missing
    clause: every clause reported for the longer text is reported for the
    content alone; and at most seven clauses are reported. *)
Theorem check_required_clauses_shrinks
    (document_type before content after : string) :
  incl (check_required_clauses document_type
          (String.append before (String.append content after)))
       (check_required_clauses document_type content)
  /\ List.length (check_required_clauses document_type content) <= 7.
Proof.
  unfold check_required_clauses.
  destruct (required_clauses !! document_type) as [required|] eqn:E;
    [|split; [intros i []|simpl; lia]].
  split.
  - intros i Hi. apply List.in_flat_map in Hi as (c & Hc & Hi).
    apply List.in_flat_map. exists c. split; [exact Hc|].
    destruct (PyStr.py_in c (PyStr.lower (String.append before _))) eqn:E1;
      [destruct Hi|].
    destruct (PyStr.py_in c (PyStr.lower content)) eqn:E2; [|exact Hi].
    exfalso. apply py_in_spec in E2.
    assert (PyStr.py_in c
              (PyStr.lower (String.append before
                              (String.append content after))) = true);
      [|congruence].
    apply py_in_spec. rewrite !lower_append.
    apply substring_of_append_r, substring_of_append_l. exact E2.
  - etransitivity; [|exact (required_clauses_length _ _ E)].
    apply flat_map_length_le. intros c. destruct (PyStr.py_in _ _); simpl; lia.
Qed.

(** ** The scoring loop of the process type *)

Lemma dict_add_comm k n k' n' d :
  dict_add k n (dict_add k' n' d) = dict_add k' n' (dict_add k n d).
Proof.
  induction d as [|[k0 v] d IH]; simpl; [reflexivity|].
  destruct (String.eqb k0 k') eqn:E', (String.eqb k0 k) eqn:E; simpl;
    rewrite ?E, ?E'; try reflexivity.
  - do 2 f_equal. lia.
  - now rewrite IH.
Qed.

Lemma dict_add_bump k n (d : list (string * nat)) :
  dict_add k n (map (fun '(process, v) => (process, v + 1)) d)
  = map (fun '(process, v) => (process, v + 1)) (dict_add k n d).
Proof.
  induction d as [|[k0 v] d IH]; simpl; [reflexivity|].
  destruct (String.eqb k0 k); simpl; [do 2 f_equal; lia|now rewrite IH].
Qed.

Lemma score_document_comm d a b :
  score_document (score_document d a) b
  = score_document (score_document d b) a.
Proof.
  unfold score_document.
  repeat match goal with
         | |- context [in_list ?x ?l] => destruct (in_list x l)
         | |- context [String.eqb ?x ?y] => destruct (String.eqb x y)
         end;
    rewrite ?dict_add_bump;
    first [reflexivity | apply dict_add_comm
          | f_equal; apply dict_add_comm
          | do 2 f_equal; apply dict_add_comm].
Qed.

Lemma scoring_loop_permutation types types' d :
  Permutation types types' ->
  fold_left score_document types d = fold_left score_document types' d.
Proof.
  intros H. revert d.
  induction H as [|x l l' _ IH|x y l|l l' l'' _ IH _ IH']; intros d; simpl.
  - reflexivity.
  - apply IH.
  - now rewrite score_document_comm.
  - now rewrite IH.
Qed.

(** X7: the process type does not depend on the order of the uploads. *)
Theorem identify_process_type_permutation
    (uploaded_documents uploaded_documents' : list (gmap string string)) :
  Permutation uploaded_documents uploaded_documents' ->
  identify_process_type uploaded_documents
  = identify_process_type uploaded_documents'.
Proof.
  intros H. unfold identify_process_type. f_equal.
  apply scoring_loop_permutation, Permutation_map, H.
Qed.

(** A board resolution and a business plan, in both orders. *)
Lemma identify_process_type_permutation_witness :
  let resolution : gmap string string :=
    {[ "document_type" := "Board Resolution" ]} in
  let plan : gmap string string := {[ "document_type" := "Business Plan" ]} in
  Permutation [resolution; plan] [plan; resolution]
  /\ identify_process_type [resolution; plan]
     = identify_process_type [plan; resolution].
Proof.
  cbn zeta. split; [apply perm_swap|].
  apply identify_process_type_permutation. apply perm_swap.
Defined.

Lemma score_document_scores a b c d doc_type :
  exists a' b' c' d',
    score_document (scores a b c d) doc_type = scores a' b' c' d'
    /\ (in_list doc_type anchor_types = false ->
        a = b -> b = c -> c = d -> a' = b' /\ b' = c' /\ c' = d')
    /\ (in_list doc_type ["License Application Form"; "Business Plan"]
        = false ->
        b <= a -> b' <= a').
Proof.
  unfold score_document, scores, anchor_types, in_list. simpl existsb.
  destruct (String.eqb doc_type "Articles of Association");
    [destruct (String.eqb doc_type "Board Resolution"); simpl;
     do 4 eexists; (split; [reflexivity|]);
     (split; [discriminate|intros _; lia])|].
  destruct (String.eqb doc_type "Memorandum of Association");
    [destruct (String.eqb doc_type "Board Resolution"); simpl;
     do 4 eexists; (split; [reflexivity|]);
     (split; [discriminate|intros _; lia])|].
  destruct (String.eqb doc_type "License Application Form");
    [destruct (String.eqb doc_type "Board Resolution"); simpl;
     do 4 eexists; (split; [reflexivity|]);
     (split; discriminate)|].
  destruct (String.eqb doc_type "Business Plan");
    [destruct (String.eqb doc_type "Board Resolution"); simpl;
     do 4 eexists; (split; [reflexivity|]);
     (split; discriminate)|].
  destruct (String.eqb doc_type "Employment Contract");
    [destruct (String.eqb doc_type "Board Resolution"); simpl;
     do 4 eexists; (split; [reflexivity|]);
     (split; [discriminate|intros _; lia])|].
  destruct (String.eqb doc_type "Job Description");
    [destruct (String.eqb doc_type "Board Resolution"); simpl;
     do 4 eexists; (split; [reflexivity|]);
     (split; [discriminate|intros _; lia])|].
  destruct (String.eqb doc_type "Commercial Agreement");
    [destruct (String.eqb doc_type "Board Resolution"); simpl;
     do 4 eexists; (split; [reflexivity|]);
     (split; [discriminate|intros _; lia])|].
  destruct (String.eqb doc_type "Due Diligence Report");
    [destruct (String.eqb doc_type "Board Resolution"); simpl;
     do 4 eexists; (split; [reflexivity|]);
     (split; [discriminate|intros _; lia])|].
  destruct (String.eqb doc_type "Board Resolution"); simpl;
    do 4 eexists; (split; [reflexivity|]); split; intros _; lia.
Qed.

Lemma scoring_loop_scores (P : nat -> nat -> nat -> nat -> Prop)
    (ok : string -> bool) types :
  (forall a b c d t,
     ok t = true -> P a b c d ->
     forall a' b' c' d',
       score_document (scores a b c d) t = scores a' b' c' d' ->
       P a' b' c' d') ->
  forallb ok types = true ->
  forall a b c d,
    P a b c d ->
    exists a' b' c' d',
      fold_left score_document types (scores a b c d) = scores a' b' c' d'
      /\ P a' b' c' d'.
Proof.
  intros Hstep. induction types as [|t types IH]; intros Hok a b c d HP.
  - exists a, b, c, d. split; [reflexivity|exact HP].
  - simpl in Hok. apply andb_prop in Hok as [Ht Hok]. simpl.
    destruct (score_document_scores a b c d t) as (a' & b' & c' & d' & E & _).
    rewrite E. apply (IH Hok). exact (Hstep _ _ _ _ _ Ht HP _ _ _ _ E).
Qed.

Lemma scores_inj a b c d a' b' c' d' :
  scores a b c d = scores a' b' c' d' -> a = a' /\ b = b' /\ c = c' /\ d = d'.
Proof. unfold scores. intros H. injection H as -> -> -> ->. auto. Qed.

(** X8: uploads without a document type that stands for one process
    (board resolutions and unknown types only) are taken for a company
    incorporation. *)
Theorem identify_process_type_default
    (uploaded_documents : list (gmap string string)) :
  Forall (fun doc => in_list (get_str doc "document_type") anchor_types = false)
         uploaded_documents ->
  identify_process_type uploaded_documents = Some "Company Incorporation".
Proof.
  intros H. unfold identify_process_type.
  destruct (scoring_loop_scores
              (fun a b c d => a = b /\ b = c /\ c = d)
              (fun t => negb (in_list t anchor_types))
              (map (fun doc => get_str doc "document_type") uploaded_documents))
    with (a := 0) (b := 0) (c := 0) (d := 0)
    as (a & b & c & d & E & -> & -> & ->).
  - intros a b c d t Ht (Hab & Hbc & Hcd) a' b' c' d' E.
    destruct (score_document_scores a b c d t)
      as (a1 & b1 & c1 & d1 & E1 & Heq & _).
    rewrite E1 in E. apply scores_inj in E as (-> & -> & -> & ->).
    apply Heq; [|assumption..]. now apply negb_true_iff in Ht.
  - rewrite forallb_forall. intros t Ht.
    apply in_map_iff in Ht as (doc & <- & Hd).
    rewrite List.Forall_forall in H. now rewrite (H doc Hd).
  - auto.
  - change initial_scores with (scores 0 0 0 0). rewrite E.
    unfold max_key, scores. simpl. rewrite !Nat.ltb_irrefl. reflexivity.
Qed.

(** A board resolution and a document of unknown type. *)
Lemma identify_process_type_default_witness :
  let uploaded_documents : list (gmap string string) :=
    [ {[ "document_type" := "Board Resolution" ]};
      {[ "document_type" := "Unknown Document Type" ]} ] in
  Forall (fun doc => in_list (get_str doc "document_type") anchor_types = false)
         uploaded_documents
  /\ identify_process_type uploaded_documents = Some "Company Incorporation".
Proof.
  cbn zeta.
  split; [repeat constructor|].
  apply identify_process_type_default. repeat constructor.
Defined.

(** ** The document type and the process type *)

Lemma py_in_false needle hay :
  PyStr.py_in needle hay = false <-> ~ substring_of needle hay.
Proof.
  rewrite <- py_in_spec. destruct (PyStr.py_in needle hay); split;
    congruence.
Qed.

(** X9: a text that calls itself a memorandum of association is classified
    as "Articles of Association"; the type "Memorandum of Association" is
    given exactly to the texts that hold both words but neither of the two
    phrases. *)
Theorem identify_document_type_memorandum
    (content : string) (structure : gmap string pyval) :
  let content_lower := PyStr.lower content in
  (substring_of "memorandum of association" content_lower ->
   identify_document_type content structure = "Articles of Association")
  /\ (identify_document_type content structure = "Memorandum of Association"
      <-> substring_of "memorandum" content_lower
          /\ substring_of "association" content_lower
          /\ ~ substring_of "articles of association" content_lower
          /\ ~ substring_of "memorandum of association" content_lower).
Proof.
  cbn zeta. unfold identify_document_type, any_in. simpl existsb.
  rewrite <- !py_in_false, <- !py_in_spec.
  generalize (PyStr.lower content) as content_lower. intros content_lower.
  destruct (PyStr.py_in "articles of association" content_lower);
    [simpl; split; [reflexivity|split; [discriminate|intuition discriminate]]|].
  destruct (PyStr.py_in "memorandum of association" content_lower);
    [simpl; split; [reflexivity|split; [discriminate|intuition discriminate]]|].
  simpl. split; [discriminate|].
  destruct (PyStr.py_in "memorandum" content_lower),
           (PyStr.py_in "association" content_lower); simpl;
    [tauto|..];
    (split; [|intuition discriminate]);
    repeat match goal with
           | |- context [if ?b then _ else _] => destruct b; simpl
           end; discriminate.
Qed.

Lemma identify_document_type_not_licensing content structure :
  in_list (identify_document_type content structure)
          ["License Application Form"; "Business Plan"] = false.
Proof.
  unfold identify_document_type.
  repeat match goal with
         | |- context [if ?b then _ else _] => destruct b
         end; reflexivity.
Qed.

Lemma descriptor_document_type file_path file_name content structure :
  get_str (descriptor file_path file_name content structure) "document_type"
  = identify_document_type content structure.
Proof.
  unfold get_str, descriptor.
  rewrite lookup_insert_ne by (intros H; discriminate H).
  rewrite lookup_insert_ne by (intros H; discriminate H).
  now rewrite lookup_insert.
Qed.

(** X10: whatever files the application processes, the process type found
    for them is never "Business Licensing": the document types that the
    processor gives never count for it alone. *)
Theorem pipeline_never_business_licensing (files : list processed_file) :
  identify_process_type (map descriptor_of files)
  <> Some "Business Licensing".
Proof.
  unfold identify_process_type.
  destruct (scoring_loop_scores
              (fun a b c d => b <= a)
              (fun t => negb (in_list t ["License Application Form";
                                         "Business Plan"]))
              (map (fun doc => get_str doc "document_type")
                   (map descriptor_of files)))
    with (a := 0) (b := 0) (c := 0) (d := 0)
    as (a & b & c & d & E & Hba).
  - intros a b c d t Ht Hba a' b' c' d' E.
    destruct (score_document_scores a b c d t)
      as (a1 & b1 & c1 & d1 & E1 & _ & Hle).
    rewrite E1 in E. apply scores_inj in E as (-> & -> & -> & ->).
    apply Hle; [|assumption]. now apply negb_true_iff in Ht.
  - rewrite forallb_forall. intros t Ht.
    apply in_map_iff in Ht as (doc & <- & Hd).
    apply in_map_iff in Hd as ([[[file_path file_name] content] structure]
                               & <- & _).
    unfold descriptor_of.
    now rewrite descriptor_document_type, identify_document_type_not_licensing.
  - lia.
  - change initial_scores with (scores 0 0 0 0). rewrite E.
    unfold max_key, scores. simpl.
    assert (Nat.ltb a b = false) as -> by (apply Nat.ltb_ge; lia).
    simpl. destruct (Nat.ltb a c); simpl;
      [destruct (Nat.ltb c d)|destruct (Nat.ltb a d)];
      simpl; intros H; discriminate H.
Qed.

(** ** The found documents *)

(** Inclusions between sets, element by element. *)
Ltac subset_tac :=
  let x := fresh "x" in
  set_unfold; intros x;
  repeat match goal with
         | H : forall y : string, _ |- _ => specialize (H x)
         end;
  tauto.

Lemma content_match_bound text filename required_docs found :
  let found' := content_match text filename required_docs found in
  found ⊆ found'
  /\ found' ⊆ found ∪ list_to_set (mandatory_names required_docs)
  /\ size found' <= S (size found).
Proof.
  cbn zeta. unfold mandatory_names.
  induction required_docs as [|required_doc rest (IH1 & IH2 & IH3)]; simpl.
  - repeat split; [subset_tac..|lia].
  - destruct (is_mandatory required_doc) eqn:Hm; simpl.
    + destruct (bool_decide _) eqn:Hd; simpl.
      * repeat split; [assumption|subset_tac|assumption].
      * destruct (match_document_type _ _ _).
        -- apply bool_decide_eq_false in Hd.
           repeat split; [subset_tac..|].
           rewrite size_union by (apply disjoint_singleton_l; exact Hd).
           rewrite size_singleton. lia.
        -- repeat split; [assumption|subset_tac|assumption].
    + repeat split; assumption.
Qed.

Lemma upload_step_found extract required_docs names st doc :
  let st' := upload_step extract (fun _ _ _ _ found => found)
                         required_docs names st doc in
  found_documents st'
    ⊆ found_documents st ∪ list_to_set (mandatory_names required_docs)
  /\ size (found_documents st')
     <= size (found_documents st) + (if skipped doc then 0 else 1).
Proof.
  cbn zeta. unfold upload_step. rewrite !get_str_empty.
  fold (skipped doc). destruct (skipped doc); simpl.
  - split; [subset_tac|lia].
  - destruct (content_match_bound
                (extract_docx_text extract (get_str doc "file_path"))
                (get_str doc "file_name") required_docs (found_documents st))
      as (_ & H2 & H3).
    split; [exact H2|lia].
Qed.

Lemma run_loop_found extract required_docs docs :
  let st := run_loop extract filename_fallback required_docs
                     (mandatory_names required_docs) docs in
  found_documents st ⊆ list_to_set (mandatory_names required_docs)
  /\ size (found_documents st) <= List.length (usable docs).
Proof.
  cbn zeta. rewrite run_loop_no_fallback. unfold run_loop.
  assert (forall st,
             let st' :=
               fold_left (upload_step extract (fun _ _ _ _ found => found)
                                      required_docs
                                      (mandatory_names required_docs))
                         docs st in
             found_documents st'
               ⊆ found_documents st
                 ∪ list_to_set (mandatory_names required_docs)
             /\ size (found_documents st')
                <= size (found_documents st) + List.length (usable docs)) as H.
  { induction docs as [|doc docs IH]; intros st; cbn zeta; simpl fold_left.
    - split; [subset_tac|simpl; lia].
    - destruct (IH (upload_step extract (fun _ _ _ _ found => found)
                                required_docs
                                (mandatory_names required_docs) st doc))
        as [IH1 IH2].
      destruct (upload_step_found extract required_docs
                                  (mandatory_names required_docs) st doc)
        as [H1 H2].
      cbn zeta in *. split; [subset_tac|].
      unfold usable. simpl List.filter. fold (usable docs).
      destruct (skipped doc); simpl; lia. }
  destruct (H {| found_documents := ∅; extracted_paths := [] |}) as [H1 H2].
  cbn zeta in H1, H2. cbn [found_documents] in H1, H2.
  rewrite size_empty in H2.
  split; [subset_tac|lia].
Qed.

Lemma missing_plus_found (names : list string) (found : gset string) :
  NoDup names ->
  found ⊆ list_to_set names ->
  List.length
    (List.filter (fun doc => negb (bool_decide (doc ∈ found))) names)
  + size found
  = List.length names.
Proof.
  intros Hnd Hsub.
  rewrite <- (List.filter_length (fun doc => bool_decide (doc ∈ found))
                                 names).
  rewrite Nat.add_comm. f_equal.
  unfold size, set_size. simpl. apply Permutation_length.
  apply NoDup_Permutation.
  - apply NoDup_elements.
  - apply NoDup_ListNoDup, List.NoDup_filter, NoDup_ListNoDup, Hnd.
  - intros x. rewrite elem_of_elements, list_elem_of_In, List.filter_In.
    rewrite bool_decide_eq_true, <- list_elem_of_In.
    split; [|tauto]. intros Hx. split; [|exact Hx].
    specialize (Hsub x Hx). now apply elem_of_list_to_set in Hsub.
Qed.

Lemma catalog_mandatory_names p required_docs :
  process_checklists !! p = Some required_docs ->
  NoDup (mandatory_names required_docs)
  /\ 1 <= List.length (mandatory_names required_docs) <= 7.
Proof.
  intros H. apply elem_of_list_to_map_2 in H.
  repeat (apply elem_of_cons in H as [H|H];
          [injection H as _ ->;
           split; [apply (bool_decide_unpack _); vm_compute; exact I
                  |vm_compute; split; repeat constructor]|]).
  now apply elem_of_nil in H.
Qed.

Lemma percentage_range (n k : nat) :
  1 <= n <= 7 -> k <= n ->
  let v := round2 (Binary64.fmul (Binary64.fdiv (Qnat k) (Qnat n)) 100) in
  (0 <= v)%Q /\ (v <= 100)%Q /\ ((v == 100)%Q <-> k = n).
Proof.
  intros Hn Hk.
  assert (n = 1 \/ n = 2 \/ n = 3 \/ n = 4 \/ n = 5 \/ n = 6 \/ n = 7)
    as [->|[->|[->|[->|[->|[->| ->]]]]]] by lia;
    (assert (k = 0 \/ k = 1 \/ k = 2 \/ k = 3 \/ k = 4 \/ k = 5 \/ k = 6
             \/ k = 7)
      as [->|[->|[->|[->|[->|[->|[->| ->]]]]]]] by lia);
    try lia;
    (split; [vm_compute; discriminate|]);
    (split; [vm_compute; discriminate|]);
    (split; [intros H; vm_compute in H; first [reflexivity|discriminate H]
            |intros H; first [discriminate H|vm_compute; reflexivity]]).
Qed.

Lemma verify_checklist_shape extract doc docs :
  exists p required_docs (found : gset string),
    In p catalog_keys
    /\ process_checklists !! p = Some required_docs
    /\ verify_checklist extract (doc :: docs)
       = Some (checklist_of p (doc :: docs) (mandatory_names required_docs)
                            found)
    /\ List.length
         (List.filter (fun name => negb (bool_decide (name ∈ found)))
                      (mandatory_names required_docs))
       + size found
       = List.length (mandatory_names required_docs)
    /\ size found <= List.length (usable (doc :: docs))
    /\ 1 <= List.length (mandatory_names required_docs) <= 7.
Proof.
  destruct (verify_with_nonempty extract filename_fallback doc docs)
    as (p & required_docs & Hin & _ & Hreq & Hv).
  destruct (run_loop_found extract required_docs (doc :: docs)) as [Hsub Hsize].
  destruct (catalog_mandatory_names p required_docs Hreq) as [Hnd Hlen].
  exists p, required_docs,
    (found_documents
       (run_loop extract filename_fallback required_docs
                 (mandatory_names required_docs) (doc :: docs))).
  repeat split; try assumption; try lia.
  - unfold verify_checklist, verify_checklist_run. now rewrite Hv.
  - now apply missing_plus_found.
Qed.

(** ** More on the checklist result *)

(** X11: [verify_checklist] gives a result for every list of uploads; its
    percentage lies between 0 and 100, is 100 exactly when the result is
    complete, and is fixed by the numbers of required and of missing
    documents. *)
Theorem completeness_percentage_spec
    (extract_text : string -> option string)
    (uploaded_documents : list (gmap string string)) :
  exists r,
    verify_checklist extract_text uploaded_documents = Some r
    /\ List.length (missing_documents r) <= required_documents r
    /\ (0 <= completeness_percentage r)%Q
    /\ (completeness_percentage r <= 100)%Q
    /\ ((completeness_percentage r == 100)%Q <-> is_complete r = true)
    /\ (uploaded_documents <> [] ->
        completeness_percentage r
        = round2
            (Binary64.fmul
               (Binary64.fdiv
                  (Qnat (required_documents r
                         - List.length (missing_documents r)))
                  (Qnat (required_documents r)))
               100)).
Proof.
  destruct uploaded_documents as [|doc docs].
  - eexists. split; [reflexivity|]. simpl.
    repeat split; try lia; try discriminate; try (intros H; now destruct H).
  - destruct (verify_checklist_shape extract_text doc docs)
      as (p & required_docs & found & _ & _ & -> & Hsum & _ & Hlen).
    eexists. split; [reflexivity|].
    unfold checklist_of.
    cbn [missing_documents required_documents completeness_percentage
         is_complete].
    set (names := mandatory_names required_docs) in *.
    set (missing :=
           List.filter (fun name => negb (bool_decide (name ∈ found))) names)
      in *.
    assert (Nat.ltb 0 (List.length names) = true) as ->
        by (apply Nat.ltb_lt; lia).
    assert (size found = List.length names - List.length missing) as E by lia.
    rewrite E.
    destruct (percentage_range (List.length names)
                (List.length names - List.length missing))
      as (H0 & H100 & Hfull); [lia..|].
    cbn zeta in *.
    repeat split; try assumption; try lia.
    + intros H. apply Nat.eqb_eq. apply Hfull in H. lia.
    + intros H. apply Nat.eqb_eq in H. apply Hfull. lia.
Qed.

(** X12: every upload marks at most one document as found: the documents
    that are not missing are at most as many as the uploads with a file
    name and a path, so a complete result needs at least as many of them
    as there are mandatory documents. *)
Theorem found_at_most_usable_uploads
    (extract_text : string -> option string)
    (uploaded_documents : list (gmap string string)) :
  exists r,
    verify_checklist extract_text uploaded_documents = Some r
    /\ required_documents r
       <= List.length (missing_documents r)
          + List.length (usable uploaded_documents)
    /\ (is_complete r = true ->
        required_documents r <= List.length (usable uploaded_documents)).
Proof.
  destruct uploaded_documents as [|doc docs].
  - eexists. split; [reflexivity|]. simpl. split; [lia|discriminate].
  - destruct (verify_checklist_shape extract_text doc docs)
      as (p & required_docs & found & _ & _ & -> & Hsum & Hsize & _).
    eexists. split; [reflexivity|].
    unfold checklist_of.
    cbn [missing_documents required_documents is_complete].
    split; [lia|]. intros H. apply Nat.eqb_eq in H. lia.
Qed.

(** ** The message to the user *)

Lemma substring_of_refl s : substring_of s s.
Proof. exists "", "". now rewrite append_empty_r. Qed.

Lemma substring_of_join sep w ws :
  In w ws -> substring_of w (PyStr.join sep ws).
Proof.
  induction ws as [|w0 ws IH]; [intros []|].
  intros [->|H].
  - destruct ws; [apply substring_of_refl|].
    apply substring_of_append_l, substring_of_refl.
  - destruct ws as [|w1 ws]; [destruct H|].
    change (PyStr.join sep (w0 :: w1 :: ws))
      with (String.append w0 (String.append sep (PyStr.join sep (w1 :: ws)))).
    apply substring_of_append_r, substring_of_append_r, IH, H.
Qed.

Lemma substring_of_fstring needle piece pieces :
  In piece pieces -> substring_of needle piece ->
  substring_of needle (fstring pieces).
Proof.
  intros Hin Hsub. induction pieces as [|p pieces IH]; [destruct Hin|].
  unfold fstring. simpl fold_right. destruct Hin as [->|Hin].
  - now apply substring_of_append_l.
  - apply substring_of_append_r, IH, Hin.
Qed.

Lemma startswith_other_char c s t d p :
  Ascii.eqb c d = false ->
  PyStr.startswith (String.append (String c s) t) (String d p) = false.
Proof. intros H. rewrite append_cons. simpl. now rewrite H. Qed.

Lemma process_description_catalog p :
  In p catalog_keys ->
  exists rest, get_process_description p = String "Y" rest.
Proof.
  intros H. repeat (destruct H as [<-|H]; [vm_compute; eauto|]). destruct H.
Qed.

(** X13: the message for the result of [verify_checklist] begins with
    "Excellent! " exactly when the result is complete, and it quotes every
    missing document. *)
Theorem user_message_spec
    (extract_text : string -> option string)
    (uploaded_documents : list (gmap string string)) :
  exists r,
    verify_checklist extract_text uploaded_documents = Some r
    /\ (PyStr.startswith (generate_user_message r) "Excellent! " = true
        <-> is_complete r = true)
    /\ Forall (fun doc =>
                 substring_of (fstring ["'"; doc; "'"])
                              (generate_user_message r))
              (missing_documents r).
Proof.
  destruct uploaded_documents as [|doc docs].
  - eexists. split; [reflexivity|]. split; [|constructor].
    vm_compute. tauto.
  - destruct (verify_checklist_shape extract_text doc docs)
      as (p & required_docs & found & Hin & _ & -> & _).
    eexists. split; [reflexivity|].
    unfold generate_user_message, checklist_of.
    cbn [missing_documents required_documents is_complete process_type
         documents_uploaded].
    set (missing :=
           List.filter (fun name => negb (bool_decide (name ∈ found)))
                       (mandatory_names required_docs)).
    destruct missing as [|m ms] eqn:E.
    + split; [|constructor]. simpl Nat.eqb. cbv iota.
      split; [reflexivity|]. intros _. apply startswith_spec.
      eexists. unfold fstring. simpl fold_right. reflexivity.
    + simpl Nat.eqb. cbv iota. split.
      * destruct (process_description_catalog p Hin) as [rest ->].
        unfold fstring. simpl fold_right.
        rewrite startswith_other_char by reflexivity. tauto.
      * apply List.Forall_forall. intros d Hd.
        eapply substring_of_fstring;
          [do 6 right; left; reflexivity|].
        apply substring_of_join.
        apply in_map_iff. exists d. split; [reflexivity|exact Hd].
Qed.

Lemma catalog_references p :
  In p catalog_keys -> get_adgm_references p <> ∅.
Proof.
  intros H.
  repeat (destruct H as [<-|H];
          [apply (bool_decide_unpack _); vm_compute; exact I|]).
  destruct H.
Qed.

(** X14: the process type of a result has a description and ADGM
    references, except for the result of an empty list of uploads. *)
Theorem process_texts_cover_results
    (extract_text : string -> option string)
    (uploaded_documents : list (gmap string string)) :
  exists r,
    verify_checklist extract_text uploaded_documents = Some r
    /\ (get_process_description (process_type r) = "Unknown legal process"
        <-> uploaded_documents = [])
    /\ (get_adgm_references (process_type r) = ∅
        <-> uploaded_documents = []).
Proof.
  destruct uploaded_documents as [|doc docs].
  - eexists. split; [reflexivity|]. split; split; reflexivity.
  - destruct (verify_checklist_shape extract_text doc docs)
      as (p & required_docs & found & Hin & _ & -> & _).
    eexists. split; [reflexivity|].
    unfold checklist_of. cbn [process_type].
    split; (split; [|discriminate]); intros H; exfalso.
    + destruct (process_description_catalog p Hin) as [rest E].
      rewrite E in H. discriminate H.
    + exact (catalog_references p Hin H).
Qed.

(** ** The knowledge base *)

Lemma firstn_in {A} n (y : A) l : In y (firstn n l) -> In y l.
Proof.
  revert l. induction n as [|n IH]; intros [|x l]; simpl; try tauto.
  intros [->|H]; [now left|right; now apply IH].
Qed.

Lemma firstn_length_le {A} n (l : list A) : List.length (firstn n l) <= n.
Proof.
  revert l. induction n as [|n IH]; intros [|x l]; simpl; try lia.
  specialize (IH l). lia.
Qed.

Section Sorting.

Context {A : Type} (key : A -> Q).

Lemma insert_desc_in x y l :
  In y (RAGEngine.insert_desc key x l) <-> y = x \/ In y l.
Proof.
  induction l as [|z l IH]; simpl; [intuition|].
  destruct (Qle_bool (key x) (key z)); simpl; rewrite ?IH; intuition.
Qed.

Lemma sort_desc_in y l : In y (RAGEngine.sort_desc key l) <-> In y l.
Proof.
  unfold RAGEngine.sort_desc.
  assert (forall acc,
             In y (fold_left
                     (fun sorted x => RAGEngine.insert_desc key x sorted)
                     l acc)
             <-> In y acc \/ In y l) as H.
  { induction l as [|x l IH]; intros acc; simpl; [intuition|].
    rewrite IH, insert_desc_in. intuition. }
  rewrite H. simpl. intuition.
Qed.

Lemma insert_desc_sorted x l :
  Sorted.StronglySorted (descending key) l ->
  Sorted.StronglySorted (descending key) (RAGEngine.insert_desc key x l).
Proof.
  induction l as [|z l IH]; intros Hs; simpl.
  - repeat constructor.
  - apply Sorted.StronglySorted_inv in Hs as [Hs Hz].
    destruct (Qle_bool (key x) (key z)) eqn:E.
    + apply Qle_bool_iff in E. constructor; [now apply IH|].
      apply List.Forall_forall. intros y Hy.
      apply insert_desc_in in Hy as [->|Hy]; [exact E|].
      rewrite List.Forall_forall in Hz. now apply Hz.
    + assert (key z <= key x)%Q as Hzx.
      { destruct (Qlt_le_dec (key z) (key x)) as [H|H];
          [now apply Qlt_le_weak|].
        apply Qle_bool_iff in H. congruence. }
      constructor; [now constructor|].
      constructor; [exact Hzx|].
      rewrite List.Forall_forall in Hz. apply List.Forall_forall.
      intros y Hy. unfold descending.
      apply Qle_trans with (key z); [|exact Hzx].
      now apply Hz.
Qed.

Lemma sort_desc_sorted l :
  Sorted.StronglySorted (descending key) (RAGEngine.sort_desc key l).
Proof.
  unfold RAGEngine.sort_desc.
  assert (forall acc,
             Sorted.StronglySorted (descending key) acc ->
             Sorted.StronglySorted (descending key)
               (fold_left (fun sorted x => RAGEngine.insert_desc key x sorted)
                          l acc)) as H.
  { induction l as [|x l IH]; intros acc Hacc; simpl; [exact Hacc|].
    apply IH, insert_desc_sorted, Hacc. }
  apply H. constructor.
Qed.

Lemma firstn_sorted n l :
  Sorted.StronglySorted (descending key) l ->
  Sorted.StronglySorted (descending key) (firstn n l).
Proof.
  revert l. induction n as [|n IH]; intros [|x l] Hs; simpl;
    try constructor.
  - apply IH. now apply Sorted.StronglySorted_inv in Hs as [Hs _].
  - apply Sorted.StronglySorted_inv in Hs as [_ Hx].
    rewrite List.Forall_forall in Hx. apply List.Forall_forall.
    intros y Hy. apply Hx. now apply firstn_in in Hy.
Qed.

End Sorting.

Lemma dict_get_in {A} k (d : list (string * A)) v :
  dict_get k d = Some v -> In (k, v) d.
Proof.
  induction d as [|[k' v'] d IH]; simpl; [discriminate|].
  destruct (String.eqb k' k) eqn:E.
  - intros [= ->]. apply String.eqb_eq in E as ->. now left.
  - intros H. right. now apply IH.
Qed.

(** X15: a search gives at most five references of the knowledge base,
    each of which mentions the lower-cased query in its title, content or
    article, the most relevant first; with a category, all of them are of
    this category. *)
Theorem search_legal_knowledge_spec
    (query : string) (category : option string) :
  let results := RAGEngine.search_legal_knowledge query category in
  let score := RAGEngine._calculate_relevance_score (PyStr.lower query) in
  List.length results <= 5
  /\ Forall (fun reference =>
               In reference all_references
               /\ RAGEngine.mentions (PyStr.lower query) reference = true)
            results
  /\ Sorted.StronglySorted (descending score) results
  /\ match category with
     | Some cat =>
         cat <> "" ->
         Forall (fun reference =>
                   In reference
                      (default [] (dict_get cat RAGEngine.legal_knowledge_base)))
                results
     | None => True
     end.
Proof.
  cbn zeta. unfold RAGEngine.search_legal_knowledge.
  split; [apply firstn_length_le|].
  split; [|split].
  - apply List.Forall_forall. intros reference H.
    apply firstn_in in H. apply sort_desc_in in H.
    apply in_flat_map in H as (cat & _ & H).
    destruct (dict_get cat RAGEngine.legal_knowledge_base) as [references|]
      eqn:E; [|destruct H].
    apply List.filter_In in H as [Hin Hm]. split; [|exact Hm].
    apply in_flat_map. exists (cat, references).
    split; [now apply dict_get_in|exact Hin].
  - apply firstn_sorted, sort_desc_sorted.
  - destruct category as [cat|]; [|exact I]. intros Hcat.
    apply String.eqb_neq in Hcat. rewrite Hcat.
    apply List.Forall_forall. intros reference H.
    apply firstn_in in H. apply sort_desc_in in H. cbn [flat_map] in H.
    rewrite app_nil_r in H.
    destruct (dict_get cat RAGEngine.legal_knowledge_base);
      cbn [default from_option id] in *; [|destruct H].
    now apply List.filter_In in H as [Hin _].
Qed.

Lemma checker_issue_type document_type content structure i :
  In i (issues (check_compliance document_type content structure)) ->
  In (issue_type i) checker_issue_types.
Proof.
  unfold check_compliance, report_of. simpl issues.
  rewrite check_jurisdiction_shape, !List.in_app_iff.
  intros [[H|H]|[H|[H|H]]].
  - apply List.in_map_iff in H as (m & <- & _). now left.
  - destruct (adgm_matches content); [|destruct H].
    destruct H as [<-|[]]. right. now left.
  - apply check_required_clauses_high in H as [_ ->]. do 2 right. now left.
  - apply check_legal_language_medium in H as [_ ->]. do 3 right. now left.
  - unfold check_formatting_compliance in H.
    destruct (negb _), (Nat.ltb _ _); simpl in H;
      repeat (destruct H as [<-|H]; [simpl; tauto|]); destruct H.
Qed.

Lemma issue_dict_entries i :
  get_str (issue_dict i) "type" = issue_type i
  /\ get_str (issue_dict i) "document_type" = "".
Proof.
  unfold get_str, issue_dict. split.
  - now rewrite lookup_insert.
  - repeat rewrite lookup_insert_ne by (intros H; discriminate H).
    now rewrite lookup_singleton_ne by (intros H; discriminate H).
Qed.

(** X16: the enhancement pass adds neither legal references nor links to
    an issue of the compliance checker: the search for its type finds no
    guidance, whatever the document. *)
Theorem enhancement_adds_nothing
    (document_type content : string) (structure : gmap string pyval) :
  Forall (fun issue =>
            RAGEngine.enhance_issue (issue_dict issue)
            = {| RAGEngine.copied := issue_dict issue;
                 RAGEngine.legal_references := None;
                 RAGEngine.links := None |})
         (issues (check_compliance document_type content structure))
  /\ RAGEngine.enhance_compliance_analysis
       (map issue_dict
            (issues (check_compliance document_type content structure)))
     = map (fun issue => {| RAGEngine.copied := issue_dict issue;
                            RAGEngine.legal_references := None;
                            RAGEngine.links := None |})
           (issues (check_compliance document_type content structure)).
Proof.
  assert (forall i,
             In i (issues (check_compliance document_type content structure)) ->
             RAGEngine.enhance_issue (issue_dict i)
             = {| RAGEngine.copied := issue_dict i;
                  RAGEngine.legal_references := None;
                  RAGEngine.links := None |}) as H.
  { intros i Hi. apply checker_issue_type in Hi.
    unfold RAGEngine.enhance_issue.
    destruct (issue_dict_entries i) as [-> ->].
    repeat (destruct Hi as [<-|Hi]; [reflexivity|]). destruct Hi. }
  split; [now apply List.Forall_forall|].
  unfold RAGEngine.enhance_compliance_analysis. rewrite map_map.
  apply map_ext_in. exact H.
Qed.

(** ** The process with the most documents of its own *)

(** Equality of two score dictionaries, number by number. *)
Ltac scores_eq :=
  unfold scores;
  repeat match goal with
         | |- (_ :: _) = (_ :: _) => f_equal
         | |- (_, _) = (_, _) => f_equal
         end;
  first [reflexivity | lia].

Lemma in_list_2 x a b :
  in_list x [a; b] = String.eqb x a || String.eqb x b.
Proof. unfold in_list. simpl. now rewrite orb_false_r. Qed.

Lemma score_document_exact a b c d doc_type :
  let w names := if in_list doc_type names then 3 else 0 in
  let r := if String.eqb doc_type "Board Resolution" then 1 else 0 in
  score_document (scores a b c d) doc_type
  = scores
      (a + w ["Articles of Association"; "Memorandum of Association"] + r)
      (b + w ["License Application Form"; "Business Plan"] + r)
      (c + w ["Employment Contract"; "Job Description"] + r)
      (d + w ["Commercial Agreement"; "Due Diligence Report"] + r).
Proof.
  cbn zeta. unfold score_document. rewrite !in_list_2.
  repeat match goal with
         | |- context [String.eqb doc_type ?s] =>
             destruct (String.eqb_spec doc_type s) as [->|?]
         end;
    simpl; scores_eq.
Qed.

Lemma scoring_loop_exact types :
  forall a b c d,
    let n names :=
      List.length (List.filter (fun t => in_list t names) types) in
    let r :=
      List.length
        (List.filter (fun t => String.eqb t "Board Resolution") types) in
    fold_left score_document types (scores a b c d)
    = scores
        (a + 3 * n ["Articles of Association"; "Memorandum of Association"] + r)
        (b + 3 * n ["License Application Form"; "Business Plan"] + r)
        (c + 3 * n ["Employment Contract"; "Job Description"] + r)
        (d + 3 * n ["Commercial Agreement"; "Due Diligence Report"] + r).
Proof.
  induction types as [|t types IH]; intros a b c d; cbn zeta.
  - simpl. scores_eq.
  - simpl fold_left. rewrite score_document_exact. cbn zeta. rewrite IH.
    cbn zeta. cbn [List.filter].
    repeat match goal with
           | |- context [if ?x then _ else _] => destruct x
           end;
      cbn [List.length]; scores_eq.
Qed.

Lemma max_key_scores a b c d r :
  max_key (scores (3 * a + r) (3 * b + r) (3 * c + r) (3 * d + r))
  = max_key (scores a b c d).
Proof.
  unfold max_key, scores. cbn [fold_left snd fst].
  destruct (Nat.ltb_spec a b), (Nat.ltb_spec (3 * a + r) (3 * b + r));
    try lia; cbn [snd];
    destruct (Nat.ltb_spec b c), (Nat.ltb_spec (3 * b + r) (3 * c + r));
    try lia; cbn [snd];
    destruct (Nat.ltb_spec a c), (Nat.ltb_spec (3 * a + r) (3 * c + r));
    try lia; cbn [snd];
    destruct (Nat.ltb_spec a d), (Nat.ltb_spec (3 * a + r) (3 * d + r));
    try lia; cbn [snd];
    destruct (Nat.ltb_spec b d), (Nat.ltb_spec (3 * b + r) (3 * d + r));
    try lia; cbn [snd];
    destruct (Nat.ltb_spec c d), (Nat.ltb_spec (3 * c + r) (3 * d + r));
    try lia; reflexivity.
Qed.

Lemma count_types_map names docs :
  List.length
    (List.filter (fun t => in_list t names)
                 (map (fun doc => get_str doc "document_type") docs))
  = count_types names docs.
Proof.
  unfold count_types. induction docs as [|doc docs IH]; [reflexivity|].
  cbn [map List.filter].
  destruct (in_list (get_str doc "document_type") names); cbn [List.length];
    now rewrite IH.
Qed.

(** X17: the process type is the first process of the catalog with the
    greatest number of uploads of its own two document types; board
    resolutions and documents of other types do not change it. *)
Theorem identify_process_type_counts
    (uploaded_documents : list (gmap string string)) :
  identify_process_type uploaded_documents
  = max_key
      [ ("Company Incorporation",
         count_types ["Articles of Association"; "Memorandum of Association"]
                     uploaded_documents);
        ("Business Licensing",
         count_types ["License Application Form"; "Business Plan"]
                     uploaded_documents);
        ("Employment Contracts",
         count_types ["Employment Contract"; "Job Description"]
                     uploaded_documents);
        ("Commercial Agreements",
         count_types ["Commercial Agreement"; "Due Diligence Report"]
                     uploaded_documents) ].
Proof.
  unfold identify_process_type. change initial_scores with (scores 0 0 0 0).
  rewrite scoring_loop_exact. cbn zeta. rewrite !Nat.add_0_l.
  rewrite max_key_scores, !count_types_map. reflexivity.
Qed.

(** ** Where a comment goes *)

Lemma first_index_spec {A} (test : A -> bool) l :
  match CommentGenerator.first_index test l with
  | Some i => i < List.length l
  | None => Forall (fun x => test x = false) l
  end.
Proof.
  induction l as [|x l IH]; simpl; [constructor|].
  destruct (test x) eqn:E; [lia|].
  destruct (CommentGenerator.first_index test l); simpl; [lia|].
  now constructor.
Qed.

(** X18: the comment of an issue goes to a paragraph of the document, and
    an issue is left without a paragraph only when every paragraph is
    blank. *)
Theorem find_target_paragraph_spec
    (paragraphs : list string) (issue : gmap string string) :
  match CommentGenerator._find_target_paragraph paragraphs issue with
  | Some i => i < List.length paragraphs
  | None => Forall (fun text => PyStr.strip text = "") paragraphs
  end.
Proof.
  unfold CommentGenerator._find_target_paragraph.
  repeat match goal with
         | |- context [CommentGenerator.first_index ?t ?l] =>
             let H := fresh "H" in
             pose proof (first_index_spec t l) as H;
             destruct (CommentGenerator.first_index t l)
         end;
    repeat match goal with
           | |- context [if ?b then _ else _] => destruct b
           end;
    try assumption.
  all: match goal with
       | H : Forall (fun x => negb _ = false) _ |- _ =>
           eapply List.Forall_impl; [|exact H]
       end;
    intros text Ht; apply negb_false_iff in Ht; now apply String.eqb_eq in Ht.
Qed.

(** X19: every issue falls into a category with links: the list of links
    for the category of an issue holds two or three addresses, all of
    them on the ADGM site. *)
Theorem issue_category_has_links (issue : gmap string string) :
  let adgm_links :=
    RAGEngine.get_adgm_links_for_category
      (RAGEngine._determine_issue_category issue) in
  2 <= List.length adgm_links <= 3
  /\ Forall (fun url => PyStr.startswith url "https://www.adgm.com" = true)
            adgm_links.
Proof.
  cbn zeta. unfold RAGEngine._determine_issue_category.
  repeat match goal with
         | |- context [if ?b then _ else _] => destruct b
         end;
    (split; [vm_compute; split; repeat constructor|repeat constructor]).
Qed.
